(** * MangaDesk server: in-memory storage and the summary / e-mail routes

    A shallow embedding of [server/storage.ts] (class [MemStorage]) and of
    the route handlers of [server/routes.ts] that create, edit, read and
    e-mail summaries.  JavaScript [Map]s are finite maps over strings, the
    handlers are state-passing functions over the storage and a trace of
    the effects they perform (outbound calls, console lines, [Map.set]),
    and an early [return res.status(..)] is the branch that ends with that
    response. *)

From Stdlib Require Import ZArith String Ascii List.
From stdpp Require Import base option gmap strings list.

Import ListNotations.

Set Warnings "-register-all".

(** ** JavaScript values

    [req.body] fields and the result of [JSON.parse] are untyped; the
    handlers look at them with [typeof], [Array.isArray] and [.length].
    Numbers are carried along and never looked into. *)

Inductive value : Type :=
| VUndefined
| VNull
| VBool (b : bool)
| VNum (n : Z)
| VStr (s : string)
| VArr (items : list value)
| VObj (fields : list (string * value)).

(** [typeof v === 'string'] *)
Definition typeof_string (v : value) : bool :=
  match v with VStr _ => true | _ => false end.

(** [Array.isArray(v)] *)
Definition Array_isArray (v : value) : bool :=
  match v with VArr _ => true | _ => false end.

(** Truthiness of a string, and of a [string | null | undefined]. *)
Definition truthy_string (s : string) : bool :=
  match s with EmptyString => false | String _ _ => true end.

Definition truthy (o : option string) : bool :=
  match o with Some s => truthy_string s | None => false end.

(** [present o] is the string held by a truthy [o]: the value the code
    goes on with after a guard [if (!o) return ..] or inside [if (o)]. *)
Definition present (o : option string) : option string :=
  match o with
  | Some (String c s) => Some (String c s)
  | _ => None
  end.

(** [a || b] on optional strings. *)
Definition or_else (a b : option string) : option string :=
  if truthy a then a else b.

(** [a || d] where [d] is a string. *)
Definition or_default (a : option string) (d : string) : string :=
  match present a with Some s => s | None => d end.

Definition LF : string := String (ascii_of_nat 10) EmptyString.
Definition DQ : string := String (ascii_of_nat 34) EmptyString.

(** ** Entities ([@shared/schema] types, as [storage.ts] builds them) *)

Definition Date : Type := Z.

Record Transcript := {
  transcript_id : string;
  transcript_content : string;
  transcript_filename : option string;
  transcript_createdAt : Date }.

Record InsertTranscript := {
  it_content : string;
  it_filename : option string }.

Record Summary := {
  summary_id : string;
  summary_transcriptId : string;
  summary_prompt : string;
  summary_content : string;
  summary_editedContent : option string;
  summary_createdAt : Date }.

Record InsertSummary := {
  is_transcriptId : string;
  is_prompt : string;
  is_content : option string }.

Record InsertEmailShare := {
  ie_summaryId : string;
  ie_recipients : string;
  ie_subject : string;
  ie_message : option string;
  ie_includeTranscript : option bool }.

Record EmailShare := {
  share_id : string;
  share_summaryId : string;
  share_recipients : string;
  share_subject : string;
  share_message : option string;
  share_includeTranscript : option bool;
  share_sentAt : Date }.

(** ** Outbound calls *)

Inductive RequestBody :=
| GeminiBody (text : string)
| ChatBody (model system user : string).

Record FetchRequest := {
  url : string;
  authorization : option string;
  body : RequestBody }.

(** What one provider call comes to inside its [try] block: an exception
    (from [fetch], [.json()], [.text()] or the property path), a response
    with [ok] false and its text, or an [ok] response with the text field
    read from its body ([None] when the field is absent). *)
Inductive FetchOutcome :=
| Threw (error : string)
| NotOk (errorText : string)
| Ok (text : option string).

Record Attachment := {
  att_filename : string;
  att_content : string;
  att_type : string }.

Record MailRequest := {
  mail_from : string;
  mail_to : list value;
  mail_subject : string;
  mail_text : string;
  mail_attachments : option (list Attachment) }.

(** [sendResult.error]: its [message] property and what it prints as. *)
Record ResendError := {
  error_message : option string;
  error_toString : string }.

Inductive SendOutcome :=
| SendThrew (error : string)
| SendResult (error : option ResendError).

Record ZodError := { zod_message : string }.

(** The runtime the server runs on.  [randomUUID] and [new Date()] are
    read at the current tick; [fetch] and [resend.emails.send] answer a
    request; [new Resend(key)] is [Some e] where the constructor throws
    [e]; [JSON.parse] is [None] where it throws a [SyntaxError];
    [insertEmailShareSchema.parse] ([@shared/schema]) either throws a
    [ZodError] or gives the typed fields. *)
Record Runtime := {
  randomUUID_at : nat -> string;
  Date_at : nat -> Date;
  fetch_outcome : FetchRequest -> FetchOutcome;
  Resend_new : option string -> option string;
  resend_emails_send : option string -> MailRequest -> SendOutcome;
  JSON_parse : string -> option value;
  insertEmailShareSchema_parse : value -> ZodError + InsertEmailShare }.

(** [process.env] *)
Record Env := {
  GOOGLE_API_KEY : option string;
  OPENAI_API_KEY : option string;
  GROQ_API_KEY : option string;
  VITE_GROQ_API_KEY : option string;
  RESEND_API_KEY : option string }.

(** ** State *)

Record MemStorage := {
  transcripts : gmap string Transcript;
  summaries : gmap string Summary;
  emailShares : gmap string EmailShare }.

Inductive Level := log | warn | error.

Inductive MapName := Transcripts | Summaries | EmailShares.

(** Effects, in program order. *)
Inductive Event :=
| EvFetch (req : FetchRequest)
| EvConsole (level : Level) (args : list string)
| EvSend (apiKey : option string) (mail : MailRequest)
| EvSet (map : MapName) (key : string).

Record World := {
  storage : MemStorage;
  tick : nat;
  trace : list Event }.

Definition M (A : Type) : Type := World -> A * World.

Definition ret {A} (a : A) : M A := fun w => (a, w).

Definition bind {A B} (m : M A) (k : A -> M B) : M B :=
  fun w => let (a, w') := m w in k a w'.

Notation "'let*' x ':=' m 'in' k" := (bind m (fun x => k))
  (at level 10, x name, m at level 100, k at level 200).
Notation "m ';;' k" := (bind m (fun _ => k))
  (at level 100, k at level 200, right associativity).

Definition emit (e : Event) : M unit :=
  fun w => (tt, {| storage := storage w; tick := tick w; trace := trace w ++ [e] |}).

Definition get_storage : M MemStorage := fun w => (storage w, w).

Definition put_storage (s : MemStorage) : M unit :=
  fun w => (tt, {| storage := s; tick := tick w; trace := trace w |}).

Definition next_tick : M nat :=
  fun w => (tick w, {| storage := storage w; tick := S (tick w); trace := trace w |}).

Definition console (level : Level) (args : list string) : M unit :=
  emit (EvConsole level args).

(** ** [MemStorage] and the routes, over a runtime *)

Section Server.

Variable rt : Runtime.

Definition randomUUID : M string :=
  let* t := next_tick in ret (randomUUID_at rt t).

Definition new_Date : M Date :=
  let* t := next_tick in ret (Date_at rt t).

(** [this.transcripts.set(id, transcript)] and its siblings *)
Definition transcripts_set (id : string) (t : Transcript) : M unit :=
  let* s := get_storage in
  put_storage {| transcripts := <[id := t]> (transcripts s);
                 summaries := summaries s;
                 emailShares := emailShares s |};;
  emit (EvSet Transcripts id).

Definition summaries_set (id : string) (x : Summary) : M unit :=
  let* s := get_storage in
  put_storage {| transcripts := transcripts s;
                 summaries := <[id := x]> (summaries s);
                 emailShares := emailShares s |};;
  emit (EvSet Summaries id).

Definition emailShares_set (id : string) (x : EmailShare) : M unit :=
  let* s := get_storage in
  put_storage {| transcripts := transcripts s;
                 summaries := summaries s;
                 emailShares := <[id := x]> (emailShares s) |};;
  emit (EvSet EmailShares id).

Definition createTranscript (insertTranscript : InsertTranscript) : M Transcript :=
  let* id := randomUUID in
  let* createdAt := new_Date in
  let transcript :=
    {| transcript_id := id;
       transcript_content := it_content insertTranscript;
       transcript_filename := it_filename insertTranscript;
       transcript_createdAt := createdAt |} in
  transcripts_set id transcript;;
  ret transcript.

Definition getTranscript (id : string) : M (option Transcript) :=
  let* s := get_storage in ret (transcripts s !! id).

Definition createSummary (insertSummary : InsertSummary) : M Summary :=
  let* id := randomUUID in
  let* createdAt := new_Date in
  let summary :=
    {| summary_transcriptId := is_transcriptId insertSummary;
       summary_prompt := is_prompt insertSummary;
       summary_content := or_default (is_content insertSummary) EmptyString;
       summary_id := id;
       summary_editedContent := None;
       summary_createdAt := createdAt |} in
  summaries_set id summary;;
  ret summary.

Definition getSummary (id : string) : M (option Summary) :=
  let* s := get_storage in ret (summaries s !! id).

Definition updateSummaryContent (id editedContent : string) : M (option Summary) :=
  let* s := get_storage in
  match summaries s !! id with
  | Some summary =>
      let updatedSummary :=
        {| summary_id := summary_id summary;
           summary_transcriptId := summary_transcriptId summary;
           summary_prompt := summary_prompt summary;
           summary_content := summary_content summary;
           summary_editedContent := Some editedContent;
           summary_createdAt := summary_createdAt summary |} in
      summaries_set id updatedSummary;;
      ret (Some updatedSummary)
  | None => ret None
  end.

Definition createEmailShare (insertEmailShare : InsertEmailShare) : M EmailShare :=
  let* id := randomUUID in
  let* sentAt := new_Date in
  let emailShare :=
    {| share_summaryId := ie_summaryId insertEmailShare;
       share_recipients := ie_recipients insertEmailShare;
       share_subject := ie_subject insertEmailShare;
       share_id := id;
       share_message := ie_message insertEmailShare;
       share_includeTranscript := ie_includeTranscript insertEmailShare;
       share_sentAt := sentAt |} in
  emailShares_set id emailShare;;
  ret emailShare.

Definition getEmailShare (id : string) : M (option EmailShare) :=
  let* s := get_storage in ret (emailShares s !! id).

(** *** Responses *)

Inductive Json :=
| Message (message : string)
| OfTranscript (t : Transcript)
| OfSummary (s : Summary)
| OfEmailShare (e : EmailShare).

Record Response := { status : nat; json : Json }.

(** [res.status(code).json({ message })] and [res.json(x)] *)
Definition res_status (code : nat) (message : string) : Response :=
  {| status := code; json := Message message |}.

Definition res_json (x : Json) : Response := {| status := 200; json := x |}.

(** *** POST /api/summaries *)

(** The body of a summary request, [{ transcriptId, prompt }]; [None] is
    a field that was not sent. *)
Record CreateSummaryRequest := {
  transcriptId : option string;
  prompt : option string }.

Definition fetch (req : FetchRequest) : M FetchOutcome :=
  emit (EvFetch req);; ret (fetch_outcome rt req).

Definition system_framing : string :=
  "You are an AI assistant that creates meeting summaries. Follow the user's instructions exactly for formatting and content focus.".

Definition instructions (prompt content : string) : string :=
  "Please summarize the following meeting transcript according to these instructions: "
  +:+ DQ +:+ prompt +:+ DQ +:+ LF +:+ LF +:+ "Transcript:" +:+ LF +:+ content.

Definition gemini_request (googleApiKey prompt content : string) : FetchRequest :=
  {| url := "https://generativelanguage.googleapis.com/v1beta/models/gemini-2.0-flash:generateContent?key="
            +:+ googleApiKey;
     authorization := None;
     body := GeminiBody (system_framing +:+ LF +:+ LF +:+ instructions prompt content) |}.

Definition openai_request (openaiApiKey prompt content : string) : FetchRequest :=
  {| url := "https://api.openai.com/v1/chat/completions";
     authorization := Some ("Bearer " +:+ openaiApiKey);
     body := ChatBody "gpt-3.5-turbo" system_framing (instructions prompt content) |}.

Definition groq_request (groqApiKey prompt content : string) : FetchRequest :=
  {| url := "https://api.groq.com/openai/v1/chat/completions";
     authorization := Some ("Bearer " +:+ groqApiKey);
     body := ChatBody "llama-3.3-70b-versatile" system_framing (instructions prompt content) |}.

(** The two locals the provider blocks assign. *)
Record Locals := { aiSummary : option string; apiUsed : string }.

(** One [try { .. } catch { .. }] block: the call, then either both
    assignments and the log line, or a warning and the locals as they
    were. *)
Definition provider_block (req : FetchRequest) (name : string)
    (failed_level : Level) (failed threw : string) (l : Locals) : M Locals :=
  let* response := fetch req in
  match response with
  | Ok text =>
      console log ["Summary generated using " +:+ name];;
      ret {| aiSummary := text; apiUsed := name |}
  | NotOk errorText => console failed_level [failed; errorText];; ret l
  | Threw e => console failed_level [threw; e];; ret l
  end.

Definition try_gemini (env : Env) (prompt content : string) (l : Locals) : M Locals :=
  match present (GOOGLE_API_KEY env) with
  | Some googleApiKey =>
      provider_block (gemini_request googleApiKey prompt content) "Google Gemini" warn
        "Google Gemini API failed, trying OpenAI..."
        "Google Gemini API error, trying OpenAI..." l
  | None => ret l
  end.

Definition try_openai (env : Env) (prompt content : string) (l : Locals) : M Locals :=
  match present (aiSummary l), present (OPENAI_API_KEY env) with
  | None, Some openaiApiKey =>
      provider_block (openai_request openaiApiKey prompt content) "OpenAI" warn
        "OpenAI API failed, trying Groq..."
        "OpenAI API error, trying Groq..." l
  | _, _ => ret l
  end.

Definition groqApiKey (env : Env) : option string :=
  or_else (GROQ_API_KEY env) (VITE_GROQ_API_KEY env).

Definition try_groq (env : Env) (prompt content : string) (l : Locals) : M Locals :=
  match present (aiSummary l), present (groqApiKey env) with
  | None, Some groqApiKey =>
      provider_block (groq_request groqApiKey prompt content) "Groq" error
        "All AI services failed. Groq error:"
        "Groq API error:" l
  | _, _ => ret l
  end.

(** Lines 118-243: the three blocks in their order. *)
Definition provider_chain (env : Env) (prompt content : string) : M Locals :=
  let* l1 := try_gemini env prompt content {| aiSummary := None; apiUsed := EmptyString |} in
  let* l2 := try_openai env prompt content l1 in
  try_groq env prompt content l2.

Definition no_key_message : string :=
  "No AI API key configured (GOOGLE_API_KEY, OPENAI_API_KEY, or GROQ_API_KEY required)".

Definition all_failed_message : string :=
  "Failed to generate summary with available AI services".

Definition post_summaries (env : Env) (req_body : CreateSummaryRequest) : M Response :=
  match present (transcriptId req_body) with
  | None => ret (res_status 400 "transcriptId is required")
  | Some transcriptId =>
  match present (prompt req_body) with
  | None => ret (res_status 400 "prompt is required")
  | Some prompt =>
  let* transcript := getTranscript transcriptId in
  match transcript with
  | None => ret (res_status 404 "Transcript not found")
  | Some transcript =>
  let* l := provider_chain env prompt (transcript_content transcript) in
  if negb (truthy (GOOGLE_API_KEY env)) && negb (truthy (OPENAI_API_KEY env))
     && negb (truthy (groqApiKey env))
  then ret (res_status 500 no_key_message)
  else
  match present (aiSummary l) with
  | None => ret (res_status 500 all_failed_message)
  | Some aiSummary =>
  let* summary := createSummary {| is_transcriptId := transcriptId;
                                   is_prompt := prompt;
                                   is_content := Some aiSummary |} in
  ret (res_json (OfSummary summary))
  end end end end.

(** *** PATCH /api/summaries/:id *)

Definition patch_summary (id : string) (editedContent : value) : M Response :=
  match editedContent with
  | VStr editedContent =>
      let* summary := updateSummaryContent id editedContent in
      match summary with
      | None => ret (res_status 404 "Summary not found")
      | Some summary => ret (res_json (OfSummary summary))
      end
  | _ => ret (res_status 400 "editedContent must be a string")
  end.

(** *** GET /api/summaries/:id *)

Definition get_summary (id : string) : M Response :=
  let* summary := getSummary id in
  match summary with
  | None => ret (res_status 404 "Summary not found")
  | Some summary => ret (res_json (OfSummary summary))
  end.

(** *** POST /api/email/send *)

Definition send (apiKey : option string) (mail : MailRequest) : M SendOutcome :=
  emit (EvSend apiKey mail);; ret (resend_emails_send rt apiKey mail).

Definition separator : string := LF +:+ LF +:+ "---" +:+ LF +:+ LF.

(** [summary.editedContent || summary.content] *)
Definition summaryContent (summary : Summary) : string :=
  or_default (summary_editedContent summary) (summary_content summary).

Definition emailBody (emailData : InsertEmailShare) (summary : Summary) : string :=
  (match present (ie_message emailData) with
   | Some message => message +:+ separator
   | None => EmptyString
   end) +:+ "MEETING SUMMARY" +:+ LF +:+ LF +:+ summaryContent summary.

Definition attachments (emailData : InsertEmailShare) (transcript : Transcript)
    : list Attachment :=
  match ie_includeTranscript emailData with
  | Some true =>
      if truthy_string (transcript_content transcript)
      then [ {| att_filename := or_default (transcript_filename transcript) "transcript.txt";
                att_content := transcript_content transcript;
                att_type := "text/plain" |} ]
      else []
  | _ => []
  end.

Definition mail_of (emailData : InsertEmailShare) (summary : Summary)
    (transcript : Transcript) (recipients : list value) : MailRequest :=
  {| mail_from := "no-reply@resend.dev";
     mail_to := recipients;
     mail_subject := ie_subject emailData;
     mail_text := emailBody emailData summary;
     mail_attachments :=
       match attachments emailData transcript with
       | [] => None
       | a :: l => Some (a :: l)
       end |}.

(** The outer [catch]: the error is logged, a [ZodError] becomes a 400
    and anything else the generic 500. *)
Definition email_catch_zod (e : ZodError) : M Response :=
  console error ["Email sending error:"; zod_message e];;
  ret (res_status 400 (zod_message e)).

Definition email_catch (e : string) : M Response :=
  console error ["Email sending error:"; e];;
  ret (res_status 500 "Failed to send email").

Definition resend_error_text (e : ResendError) : string :=
  or_default (error_message e) (error_toString e).

Definition post_email_send (env : Env) (req_body : value) : M Response :=
  match insertEmailShareSchema_parse rt req_body with
  | inl zodError => email_catch_zod zodError
  | inr emailData =>
  let* summary := getSummary (ie_summaryId emailData) in
  match summary with
  | None => ret (res_status 404 "Summary not found")
  | Some summary =>
  let* transcript := getTranscript (summary_transcriptId summary) in
  match transcript with
  | None => ret (res_status 404 "Transcript not found")
  | Some transcript =>
  match JSON_parse rt (ie_recipients emailData) with
  | None => email_catch "SyntaxError"
  | Some (VArr (r :: rs)) =>
      let recipients := r :: rs in
      match Resend_new rt (RESEND_API_KEY env) with
      | Some e => email_catch e
      | None =>
      let* sendResult :=
        send (RESEND_API_KEY env) (mail_of emailData summary transcript recipients) in
      match sendResult with
      | SendThrew e => email_catch e
      | SendResult (Some e) =>
          console error ["Resend API error:"; error_toString e];;
          ret (res_status 500 ("Resend error: " +:+ resend_error_text e))
      | SendResult None =>
          let* emailShare := createEmailShare emailData in
          ret (res_json (OfEmailShare emailShare))
      end end
  | Some _ => ret (res_status 400 "Invalid recipients")
  end end end end.

End Server.

Arguments ret {A} a w /.
Arguments bind {A B} m k w /.

(** ** Reading a run *)

Fixpoint fetches (tr : list Event) : list FetchRequest :=
  match tr with
  | [] => []
  | EvFetch req :: tr' => req :: fetches tr'
  | _ :: tr' => fetches tr'
  end.

Fixpoint sends (tr : list Event) : list MailRequest :=
  match tr with
  | [] => []
  | EvSend _ mail :: tr' => mail :: sends tr'
  | _ :: tr' => sends tr'
  end.

(** The events a run from [w] to [w'] added to the trace. *)
Definition events_since (w w' : World) : list Event :=
  drop (length (trace w)) (trace w').

(** [w] with further events on its trace. *)
Definition emitted (w : World) (evs : list Event) : World :=
  {| storage := storage w; tick := tick w; trace := trace w ++ evs |}.

(** The non-empty text a provider call returned, if it did. *)
Definition text_of (o : FetchOutcome) : option string :=
  match o with Ok text => present text | _ => None end.

(** A run that neither sends a mail nor sets a map entry. *)
Definition quiet (w w' : World) : Prop :=
  storage w' = storage w
  /\ (forall key mail, ~ In (EvSend key mail) (events_since w w'))
  /\ (forall m k, ~ In (EvSet m k) (events_since w w')).

(** The entities the storage builds at [w]. *)
Definition created_summary (rt : Runtime) (insertSummary : InsertSummary) (w : World)
    : Summary :=
  {| summary_id := randomUUID_at rt (tick w);
     summary_transcriptId := is_transcriptId insertSummary;
     summary_prompt := is_prompt insertSummary;
     summary_content := or_default (is_content insertSummary) EmptyString;
     summary_editedContent := None;
     summary_createdAt := Date_at rt (S (tick w)) |}.

Definition created_share (rt : Runtime) (insertEmailShare : InsertEmailShare) (w : World)
    : EmailShare :=
  {| share_id := randomUUID_at rt (tick w);
     share_summaryId := ie_summaryId insertEmailShare;
     share_recipients := ie_recipients insertEmailShare;
     share_subject := ie_subject insertEmailShare;
     share_message := ie_message insertEmailShare;
     share_includeTranscript := ie_includeTranscript insertEmailShare;
     share_sentAt := Date_at rt (S (tick w)) |}.

(** [{ ...summary, editedContent }] and [summary] with no edited content. *)
Definition edited (summary : Summary) (editedContent : string) : Summary :=
  {| summary_id := summary_id summary;
     summary_transcriptId := summary_transcriptId summary;
     summary_prompt := summary_prompt summary;
     summary_content := summary_content summary;
     summary_editedContent := Some editedContent;
     summary_createdAt := summary_createdAt summary |}.

Definition unedited (summary : Summary) : Summary :=
  {| summary_id := summary_id summary;
     summary_transcriptId := summary_transcriptId summary;
     summary_prompt := summary_prompt summary;
     summary_content := summary_content summary;
     summary_editedContent := None;
     summary_createdAt := summary_createdAt summary |}.

(** The run of POST /api/email/send once the request, the two lookups,
    the recipients and the client are through: the call of the mail
    provider and what follows it. *)
Definition dispatch (rt : Runtime) (env : Env) (emailData : InsertEmailShare)
    (summary : Summary) (transcript : Transcript) (recipients : list value) (w : World)
    : Response * World :=
  let key := RESEND_API_KEY env in
  let mail := mail_of emailData summary transcript recipients in
  let w1 := emitted w [EvSend key mail] in
  match resend_emails_send rt key mail with
  | SendThrew e =>
      (res_status 500 "Failed to send email",
       emitted w1 [EvConsole error ["Email sending error:"; e]])
  | SendResult (Some e) =>
      (res_status 500 ("Resend error: " +:+ resend_error_text e),
       emitted w1 [EvConsole error ["Resend API error:"; error_toString e]])
  | SendResult None =>
      (res_json (OfEmailShare (created_share rt emailData w1)),
       snd (createEmailShare rt emailData w1))
  end.

(** What a run of POST /api/email/send keeps to: an error answer of the
    mail provider gives the 500 that carries it and leaves the storage
    alone, and the storage changes only by the share set after a send
    that succeeded. *)
Definition send_then_record (rt : Runtime) (env : Env) (w : World)
    (run : Response * World) : Prop :=
  let evs := events_since w (snd run) in
  (forall key mail e,
      In (EvSend key mail) evs ->
      resend_emails_send rt key mail = SendResult (Some e) ->
      fst run = res_status 500 ("Resend error: " +:+ resend_error_text e)
      /\ storage (snd run) = storage w)
  /\ ((storage (snd run) = storage w /\ forall m k, ~ In (EvSet m k) evs)
      \/ exists mail share,
           evs = [EvSend (RESEND_API_KEY env) mail; EvSet EmailShares (share_id share)]
           /\ resend_emails_send rt (RESEND_API_KEY env) mail = SendResult None
           /\ fst run = res_json (OfEmailShare share)
           /\ storage (snd run)
              = {| transcripts := transcripts (storage w);
                   summaries := summaries (storage w);
                   emailShares := <[share_id share := share]> (emailShares (storage w)) |}).

(** ** The provider chain in the spec's words

    "Priority order is fixed: Provider A, then Provider B, then Provider
    C.  Each provider is attempted only if its credential is configured;
    [..] The chain stops at the first provider that returns a non-empty
    text result." *)

Inductive Provider := Gemini | OpenAI | Groq.

Definition priority : list Provider := [Gemini; OpenAI; Groq].

Definition credential (env : Env) (p : Provider) : option string :=
  match p with
  | Gemini => GOOGLE_API_KEY env
  | OpenAI => OPENAI_API_KEY env
  | Groq => groqApiKey env
  end.

Definition request_of (p : Provider) : string -> string -> string -> FetchRequest :=
  match p with
  | Gemini => gemini_request
  | OpenAI => openai_request
  | Groq => groq_request
  end.

Definition name_of (p : Provider) : string :=
  match p with
  | Gemini => "Google Gemini"
  | OpenAI => "OpenAI"
  | Groq => "Groq"
  end.

(** The calls made, in their order and each with its provider, and the
    text and provider the chain ends with. *)
Fixpoint chain_spec (rt : Runtime) (env : Env) (prompt content : string)
    (ps : list Provider) : list (Provider * FetchRequest) * option (string * Provider) :=
  match ps with
  | [] => ([], None)
  | p :: ps' =>
      match present (credential env p) with
      | None => chain_spec rt env prompt content ps'
      | Some key =>
          let req := request_of p key prompt content in
          match text_of (fetch_outcome rt req) with
          | Some text => ([(p, req)], Some (text, p))
          | None =>
              let (calls, result) := chain_spec rt env prompt content ps' in
              ((p, req) :: calls, result)
          end
      end
  end.

(** ** The composed mail in the spec's words

    "If [message] present, prepend it followed by a separator line, then
    append a fixed header and the effective summary content
    (editedContent if set, else content)." *)

Definition effective_content_spec (summary : Summary) : string :=
  match summary_editedContent summary with
  | Some editedContent => editedContent
  | None => summary_content summary
  end.

Definition emailBody_spec (message : option string) (summary : Summary) : string :=
  (match message with
   | Some m => m +:+ LF +:+ LF +:+ "---" +:+ LF +:+ LF
   | None => EmptyString
   end) +:+ "MEETING SUMMARY" +:+ LF +:+ LF +:+ effective_content_spec summary.

(** The same with "present", "set" and "recorded" read as "not empty",
    and the attachment. *)
Definition nonempty_or (o : option string) (d : string) : string :=
  match o with
  | Some s => if truthy_string s then s else d
  | None => d
  end.

Definition composed_text (message : option string) (summary : Summary) : string :=
  (match message with
   | Some m => if truthy_string m then m +:+ LF +:+ LF +:+ "---" +:+ LF +:+ LF
               else EmptyString
   | None => EmptyString
   end) +:+ "MEETING SUMMARY" +:+ LF +:+ LF
  +:+ nonempty_or (summary_editedContent summary) (summary_content summary).

Definition composed_attachments (includeTranscript : option bool)
    (transcript : Transcript) : option (list Attachment) :=
  match includeTranscript with
  | Some true =>
      if truthy_string (transcript_content transcript)
      then Some [ {| att_filename := nonempty_or (transcript_filename transcript)
                                                 "transcript.txt";
                     att_content := transcript_content transcript;
                     att_type := "text/plain" |} ]
      else None
  | _ => None
  end.

(** ** A runtime for the examples *)

Module Sample.

Definition openai_url : string := "https://api.openai.com/v1/chat/completions".
Definition groq_url : string := "https://api.groq.com/openai/v1/chat/completions".

(** Providers told apart by the URL they are called at. *)
Definition answer (gemini openai groq : FetchOutcome) (req : FetchRequest) : FetchOutcome :=
  if String.eqb (url req) openai_url then openai
  else if String.eqb (url req) groq_url then groq
  else gemini.

Definition uuid (n : nat) : string :=
  "uuid-" +:+ String (ascii_of_nat (48 + n)) EmptyString.

Definition one_address : string := "[" +:+ DQ +:+ "a@x.com" +:+ DQ +:+ "]".
Definition not_an_address : string := "[" +:+ DQ +:+ "not an address" +:+ DQ +:+ "]".

(** [JSON.parse] on the texts the examples use; a [SyntaxError]
    elsewhere. *)
Definition parse (s : string) : option value :=
  if String.eqb s "[]" then Some (VArr [])
  else if String.eqb s "{}" then Some (VObj [])
  else if String.eqb s one_address then Some (VArr [VStr "a@x.com"])
  else if String.eqb s not_an_address then Some (VArr [VStr "not an address"])
  else None.

Fixpoint field (name : string) (fields : list (string * value)) : value :=
  match fields with
  | [] => VUndefined
  | (k, v) :: rest => if String.eqb k name then v else field name rest
  end.

(** Modelled from the spec: [insertEmailShareSchema] of [@shared/schema],
    which is not among the sources, as the request of POST /email/send
    reads there: three required strings, an optional message and an
    optional flag. *)
Definition schema (v : value) : ZodError + InsertEmailShare :=
  match v with
  | VObj fields =>
      match field "summaryId" fields, field "recipients" fields, field "subject" fields with
      | VStr summaryId, VStr recipients, VStr subject =>
          match field "message" fields, field "includeTranscript" fields with
          | (VStr _ | VNull | VUndefined) as m, (VBool _ | VNull | VUndefined) as i =>
              inr {| ie_summaryId := summaryId;
                     ie_recipients := recipients;
                     ie_subject := subject;
                     ie_message := match m with VStr s => Some s | _ => None end;
                     ie_includeTranscript := match i with VBool b => Some b | _ => None end |}
          | _, _ => inl {| zod_message := "Validation error" |}
          end
      | _, _, _ => inl {| zod_message := "Validation error: Required" |}
      end
  | _ => inl {| zod_message := "Validation error: Expected object" |}
  end.

Definition runtime (gemini openai groq : FetchOutcome) (mail : SendOutcome) : Runtime :=
  {| randomUUID_at := uuid;
     Date_at := Z.of_nat;
     fetch_outcome := answer gemini openai groq;
     Resend_new := fun key => if truthy key then None else Some "Missing API key";
     resend_emails_send := fun _ _ => mail;
     JSON_parse := parse;
     insertEmailShareSchema_parse := schema |}.

Definition empty : World :=
  {| storage := {| transcripts := ∅; summaries := ∅; emailShares := ∅ |};
     tick := 0;
     trace := [] |}.

Definition env (google openai groq resend : option string) : Env :=
  {| GOOGLE_API_KEY := google;
     OPENAI_API_KEY := openai;
     GROQ_API_KEY := groq;
     VITE_GROQ_API_KEY := None;
     RESEND_API_KEY := resend |}.

(** A store holding the transcript [uuid-0]. *)
Definition with_transcript (rt : Runtime) : World :=
  snd (createTranscript rt {| it_content := "Alice: ship by Friday.";
                              it_filename := None |} empty).

End Sample.

(** *** Worlds and requests of the examples *)

Module Fallback.
(** Gemini answers with an error status, OpenAI with a summary; Groq is
    configured and would answer too. *)
Definition rt : Runtime :=
  Sample.runtime (NotOk "quota exceeded") (Ok (Some "- Ship by Friday"))
                 (Ok (Some "never asked")) (SendResult None).
Definition env : Env := Sample.env (Some "g-key") (Some "o-key") (Some "q-key") None.
Definition req_body : CreateSummaryRequest :=
  {| transcriptId := Some "uuid-0"; prompt := Some "list action items" |}.
Definition w : World := Sample.with_transcript rt.
End Fallback.

Module NoKeys.
Definition env : Env := Sample.env None None None None.
End NoKeys.

Module Mail.
(** The store after a transcript was created and summarised: transcript
    [uuid-0], summary [uuid-2]. *)
Definition rt : Runtime := Fallback.rt.
Definition env : Env :=
  Sample.env (Some "g-key") (Some "o-key") (Some "q-key") (Some "re-key").
Definition w : World := snd (post_summaries rt env Fallback.req_body Fallback.w).
Definition transcript : Transcript :=
  {| transcript_id := "uuid-0";
     transcript_content := "Alice: ship by Friday.";
     transcript_filename := None;
     transcript_createdAt := 1%Z |}.
Definition summary : Summary :=
  {| summary_id := "uuid-2";
     summary_transcriptId := "uuid-0";
     summary_prompt := "list action items";
     summary_content := "- Ship by Friday";
     summary_editedContent := None;
     summary_createdAt := 3%Z |}.
Definition request (summaryId recipients : string) (message includeTranscript : value)
    : value :=
  VObj [("summaryId", VStr summaryId); ("recipients", VStr recipients);
        ("subject", VStr "Summary of the meeting");
        ("message", message); ("includeTranscript", includeTranscript)].
End Mail.

Module Edited.
(** The summary [uuid-2] of [Mail.w] after an edit. *)
Definition cleared : World := snd (patch_summary "uuid-2" (VStr EmptyString) Mail.w).
Definition revised : World :=
  snd (patch_summary "uuid-2" (VStr "- Ship by Friday (owner: Alice)") Mail.w).
End Edited.

Module Quota.
(** Only Gemini is configured and it answers with an error status; the
    mail provider answers with an error. *)
Definition rt : Runtime :=
  Sample.runtime (NotOk "quota exceeded") (Threw "never asked") (Threw "never asked")
                 (SendResult (Some {| error_message := Some "domain is not verified";
                                      error_toString := "[object Object]" |})).
Definition env : Env := Sample.env (Some "g-key") None None (Some "re-key").
Definition w : World := Sample.with_transcript rt.
End Quota.

(** * Properties *)

(** ** Basic facts *)

Lemma fetches_app (a b : list Event) : fetches (a ++ b) = fetches a ++ fetches b.
Proof. induction a as [|[] a IH]; simpl; congruence. Qed.

Lemma sends_app (a b : list Event) : sends (a ++ b) = sends a ++ sends b.
Proof. induction a as [|[] a IH]; simpl; congruence. Qed.

Lemma events_since_refl w : events_since w w = [].
Proof. unfold events_since. apply drop_all. Qed.

Lemma events_since_app w w' evs :
  trace w' = trace w ++ evs -> events_since w w' = evs.
Proof. unfold events_since. intros ->. apply drop_app_length. Qed.

Lemma events_since_emitted w evs : events_since w (emitted w evs) = evs.
Proof. now apply events_since_app. Qed.

Lemma present_Some (o : option string) (s : string) :
  present o = Some s -> o = Some s /\ truthy_string s = true.
Proof. destruct o as [[|c t]|]; simpl; intros H; inversion H; auto. Qed.

Lemma present_truthy (o : option string) (s : string) :
  present o = Some s -> truthy o = true.
Proof. intros H. apply present_Some in H as [-> H]. exact H. Qed.

Lemma present_None (o : option string) : present o = None <-> truthy o = false.
Proof. destruct o as [[|c t]|]; simpl; split; congruence. Qed.

Lemma or_default_present (o : option string) (s d : string) :
  present o = Some s -> or_default o d = s.
Proof. unfold or_default. now intros ->. Qed.

Lemma text_of_Some (o : FetchOutcome) (t : string) :
  text_of o = Some t <-> o = Ok (Some t) /\ t <> EmptyString.
Proof.
  split.
  - destruct o as [e|e|[[|c s]|]]; simpl; intros H; inversion H; subst.
    split; [reflexivity | discriminate].
  - intros [-> H]. destruct t; [congruence | reflexivity].
Qed.

Lemma quiet_refl w : quiet w w.
Proof.
  unfold quiet. rewrite events_since_refl. repeat split; intros ? ? [].
Qed.

Lemma quiet_console w level args : quiet w (emitted w [EvConsole level args]).
Proof.
  unfold quiet. rewrite events_since_emitted.
  repeat split; intros ? ? [H|[]]; discriminate H.
Qed.

Lemma NoDup_priority : NoDup priority.
Proof.
  unfold priority.
  repeat (apply NoDup_cons_2;
          [rewrite ?not_elem_of_cons; repeat split; try discriminate;
           apply not_elem_of_nil|]).
  apply NoDup_nil_2.
Qed.

Local Arguments gemini_request : simpl never.
Local Arguments openai_request : simpl never.
Local Arguments groq_request : simpl never.
Local Arguments present : simpl never.

(** ** The provider chain *)

Section Chain.

Variables (rt : Runtime) (env : Env) (prompt content : string).

Lemma provider_block_run req name lvl failed threw l w :
  provider_block rt req name lvl failed threw l w =
  (match fetch_outcome rt req with
   | Ok text => {| aiSummary := text; apiUsed := name |}
   | _ => l
   end,
   {| storage := storage w; tick := tick w;
      trace := (trace w ++ [EvFetch req]) ++
               [match fetch_outcome rt req with
                | Ok _ => EvConsole log ["Summary generated using " +:+ name]
                | NotOk errorText => EvConsole lvl [failed; errorText]
                | Threw e => EvConsole lvl [threw; e]
                end] |}).
Proof.
  unfold provider_block, fetch, console, emit. simpl.
  destruct (fetch_outcome rt req); reflexivity.
Qed.

(** The attempts of the spec's chain follow the list they are taken from:
    none twice, none out of order. *)
Lemma chain_spec_sublist ps :
  sublist (map fst (fst (chain_spec rt env prompt content ps))) ps.
Proof.
  induction ps as [|p ps IH]; simpl.
  - constructor.
  - destruct (present (credential env p)) as [key|].
    + destruct (text_of _).
      * simpl. apply sublist_skip, sublist_nil_l.
      * destruct (chain_spec rt env prompt content ps) as [calls result].
        simpl in *. now apply sublist_skip.
    + now apply sublist_cons.
Qed.

(** Every attempt is a call of a configured provider with its key. *)
Lemma chain_spec_configured ps p req :
  In (p, req) (fst (chain_spec rt env prompt content ps)) ->
  exists key, present (credential env p) = Some key
              /\ req = request_of p key prompt content.
Proof.
  induction ps as [|q ps IH]; simpl; [tauto|].
  destruct (present (credential env q)) as [key|] eqn:Hq; [|exact IH].
  destruct (text_of _).
  - simpl. intros [[= <- <-]|[]]. eauto.
  - destruct (chain_spec rt env prompt content ps) as [calls result].
    simpl in *. intros [[= <- <-]|H]; eauto.
Qed.

(** A call that returned a non-empty text is the one the chain ends with *)
Lemma chain_spec_first_text ps p req t :
  In (p, req) (fst (chain_spec rt env prompt content ps)) ->
  text_of (fetch_outcome rt req) = Some t ->
  snd (chain_spec rt env prompt content ps) = Some (t, p).
Proof.
  induction ps as [|q ps IH]; simpl; [tauto|].
  destruct (present (credential env q)) as [key|]; [|exact IH].
  destruct (text_of (fetch_outcome rt (request_of q key prompt content))) eqn:Hq.
  - simpl. intros [[= <- <-]|[]] Ht. congruence.
  - destruct (chain_spec rt env prompt content ps) as [calls result].
    simpl in *. intros [[= <- <-]|H] Ht; [congruence | auto].
Qed.

(** and the chain ends with a text only if a call returned it. *)
Lemma chain_spec_result ps t p :
  snd (chain_spec rt env prompt content ps) = Some (t, p) ->
  exists req, In (p, req) (fst (chain_spec rt env prompt content ps))
              /\ text_of (fetch_outcome rt req) = Some t.
Proof.
  induction ps as [|q ps IH]; simpl; [discriminate|].
  destruct (present (credential env q)) as [key|]; [|exact IH].
  destruct (text_of (fetch_outcome rt (request_of q key prompt content))) eqn:Hq.
  - simpl. intros [= <- <-]. eexists. split; [left; reflexivity | exact Hq].
  - destruct (chain_spec rt env prompt content ps) as [calls result].
    simpl in *. intros H. destruct (IH H) as (req & Hin & Ht). eauto.
Qed.

(** A configured provider of the list that would answer with a text
    makes the chain end with one. *)
Lemma chain_spec_succeeds ps p key t :
  In p ps ->
  present (credential env p) = Some key ->
  text_of (fetch_outcome rt (request_of p key prompt content)) = Some t ->
  is_Some (snd (chain_spec rt env prompt content ps)).
Proof.
  induction ps as [|q ps IH]; simpl; [tauto|].
  intros [->|Hin] Hkey Ht.
  - rewrite Hkey, Ht. simpl. eauto.
  - destruct (present (credential env q)) as [key'|]; [|auto].
    destruct (text_of (fetch_outcome rt (request_of q key' prompt content)));
      [simpl; eauto|].
    specialize (IH Hin Hkey Ht).
    destruct (chain_spec rt env prompt content ps) as [calls result]. exact IH.
Qed.

(** The chain stops at the first call that returned a text: every call
    before it returned none, and when it ends without a text every call
    returned none. *)
Lemma chain_spec_shape ps :
  match snd (chain_spec rt env prompt content ps) with
  | Some (t, p) =>
      exists before req,
        fst (chain_spec rt env prompt content ps) = before ++ [(p, req)]
        /\ text_of (fetch_outcome rt req) = Some t
        /\ Forall (fun c => text_of (fetch_outcome rt (snd c)) = None) before
  | None =>
      Forall (fun c => text_of (fetch_outcome rt (snd c)) = None)
             (fst (chain_spec rt env prompt content ps))
  end.
Proof.
  induction ps as [|q ps IH]; simpl; [constructor|].
  destruct (present (credential env q)) as [key|]; [|exact IH].
  destruct (text_of (fetch_outcome rt (request_of q key prompt content))) eqn:Hq.
  - simpl. exists [], (request_of q key prompt content). auto.
  - destruct (chain_spec rt env prompt content ps) as [calls [[t p]|]]; simpl in *.
    + destruct IH as (before & req & -> & Ht & Hall).
      exists ((q, request_of q key prompt content) :: before), req.
      repeat split; auto.
    + constructor; auto.
Qed.

Ltac case_outcome :=
  match goal with
  | |- context [fetch_outcome rt ?r] =>
      let o := fresh "o" in
      destruct (fetch_outcome rt r) as [?|?|[[|? ?]|]] eqn:o
  end.

(** The three blocks of the handler do what the spec's chain does. *)
Lemma provider_chain_refines w :
  let run := provider_chain rt env prompt content w in
  let spec := chain_spec rt env prompt content priority in
  trace (snd run) = trace w ++ drop (length (trace w)) (trace (snd run))
  /\ fetches (drop (length (trace w)) (trace (snd run))) = map snd (fst spec)
  /\ sends (drop (length (trace w)) (trace (snd run))) = []
  /\ storage (snd run) = storage w
  /\ tick (snd run) = tick w
  /\ present (aiSummary (fst run)) = fst <$> snd spec
  /\ (forall t p, snd spec = Some (t, p) ->
        aiSummary (fst run) = Some t /\ apiUsed (fst run) = name_of p).
Proof.
  unfold provider_chain, try_gemini, try_openai, try_groq, priority. simpl.
  destruct (present (GOOGLE_API_KEY env)) as [kA|] eqn:HA;
  destruct (present (OPENAI_API_KEY env)) as [kB|] eqn:HB;
  destruct (present (groqApiKey env)) as [kC|] eqn:HC;
  rewrite ?provider_block_run; simpl.
  all: repeat (case_outcome; simpl; rewrite ?provider_block_run; simpl).
  all: rewrite <- ?app_assoc, ?drop_app_length, ?drop_all; simpl.
  all: rewrite ?app_nil_r.
  all: repeat split; try reflexivity.
  all: try discriminate.
  all: simplify_eq; reflexivity.
Qed.

End Chain.

(** ** Runs of the storage operations and of POST /api/summaries *)

Section Runs.

Variable rt : Runtime.

Lemma createSummary_run insertSummary w :
  createSummary rt insertSummary w =
  (created_summary rt insertSummary w,
   {| storage := {| transcripts := transcripts (storage w);
                    summaries := <[randomUUID_at rt (tick w) := created_summary rt insertSummary w]>
                                   (summaries (storage w));
                    emailShares := emailShares (storage w) |};
      tick := S (S (tick w));
      trace := trace w ++ [EvSet Summaries (randomUUID_at rt (tick w))] |}).
Proof. reflexivity. Qed.

Lemma createEmailShare_run insertEmailShare w :
  createEmailShare rt insertEmailShare w =
  (created_share rt insertEmailShare w,
   {| storage := {| transcripts := transcripts (storage w);
                    summaries := summaries (storage w);
                    emailShares := <[randomUUID_at rt (tick w) := created_share rt insertEmailShare w]>
                                     (emailShares (storage w)) |};
      tick := S (S (tick w));
      trace := trace w ++ [EvSet EmailShares (randomUUID_at rt (tick w))] |}).
Proof. reflexivity. Qed.

Lemma updateSummaryContent_run id editedContent w :
  updateSummaryContent id editedContent w =
  match summaries (storage w) !! id with
  | Some summary =>
      (Some (edited summary editedContent),
       {| storage := {| transcripts := transcripts (storage w);
                        summaries := <[id := edited summary editedContent]> (summaries (storage w));
                        emailShares := emailShares (storage w) |};
          tick := tick w;
          trace := trace w ++ [EvSet Summaries id] |})
  | None => (None, w)
  end.
Proof.
  unfold updateSummaryContent, get_storage. simpl.
  destruct (summaries (storage w) !! id); reflexivity.
Qed.

(** A request that passes the two field guards and names a stored
    transcript runs the chain and then one of the three endings. *)
Lemma post_summaries_run env req_body w tid p transcript :
  present (transcriptId req_body) = Some tid ->
  present (prompt req_body) = Some p ->
  transcripts (storage w) !! tid = Some transcript ->
  post_summaries rt env req_body w =
  let (l, w1) := provider_chain rt env p (transcript_content transcript) w in
  if negb (truthy (GOOGLE_API_KEY env)) && negb (truthy (OPENAI_API_KEY env))
     && negb (truthy (groqApiKey env))
  then (res_status 500 no_key_message, w1)
  else match present (aiSummary l) with
       | None => (res_status 500 all_failed_message, w1)
       | Some aiSummary =>
           let insertSummary := {| is_transcriptId := tid;
                                   is_prompt := p;
                                   is_content := Some aiSummary |} in
           (res_json (OfSummary (created_summary rt insertSummary w1)),
            snd (createSummary rt insertSummary w1))
       end.
Proof.
  intros Htid Hp Ht. unfold post_summaries. rewrite Htid, Hp.
  unfold getTranscript, get_storage. simpl. rewrite Ht.
  destruct (negb _ && negb _ && negb _); simpl;
    destruct (provider_chain rt env p (transcript_content transcript) w) as [l w1];
    [reflexivity|].
  destruct (present (aiSummary l)); reflexivity.
Qed.

(** A request stopped by a guard leaves the world as it was. *)
Lemma post_summaries_guarded env req_body w :
  present (transcriptId req_body) = None
  \/ present (prompt req_body) = None
  \/ (exists tid, present (transcriptId req_body) = Some tid
                  /\ transcripts (storage w) !! tid = None) ->
  snd (post_summaries rt env req_body w) = w
  /\ (status (fst (post_summaries rt env req_body w)) = 400
      \/ fst (post_summaries rt env req_body w) = res_status 404 "Transcript not found").
Proof.
  unfold post_summaries, getTranscript, get_storage.
  intros [H|[H|(tid & H & Ht)]].
  - rewrite H. simpl. auto.
  - rewrite H. destruct (present (transcriptId req_body)); simpl; auto.
  - rewrite H. destruct (present (prompt req_body)); simpl; [|auto].
    rewrite Ht. simpl. auto.
Qed.

End Runs.

(** ** POST /api/summaries *)

Lemma credential_truthy_guard env p key :
  present (credential env p) = Some key ->
  negb (truthy (GOOGLE_API_KEY env)) && negb (truthy (OPENAI_API_KEY env))
    && negb (truthy (groqApiKey env)) = false.
Proof.
  intros H. apply present_truthy in H.
  destruct p; simpl in H; rewrite H; simpl;
    rewrite ?andb_false_r; reflexivity.
Qed.

(** The provider calls of a request that reaches the chain are the calls
    of the spec's chain. *)
Lemma post_summaries_fetches rt env req_body w tid p transcript :
  present (transcriptId req_body) = Some tid ->
  present (prompt req_body) = Some p ->
  transcripts (storage w) !! tid = Some transcript ->
  fetches (events_since w (snd (post_summaries rt env req_body w)))
  = map snd (fst (chain_spec rt env p (transcript_content transcript) priority)).
Proof.
  intros Htid Hp Ht.
  rewrite (post_summaries_run rt env req_body w tid p transcript Htid Hp Ht).
  pose proof (provider_chain_refines rt env p (transcript_content transcript) w) as R.
  destruct (provider_chain rt env p (transcript_content transcript) w) as [l w1].
  cbv zeta in R. cbn [fst snd] in R. destruct R as (Htr & Hf & _).
  fold (events_since w w1) in Htr, Hf. rewrite <- Hf.
  destruct (negb _ && negb _ && negb _); [reflexivity|].
  destruct (present (aiSummary l)); [|reflexivity].
  cbv zeta. cbn [snd]. rewrite createSummary_run. cbn [snd].
  rewrite (events_since_app w _
             (events_since w w1 ++ [EvSet Summaries (randomUUID_at rt (tick w1))])).
  - rewrite fetches_app. simpl. now rewrite app_nil_r.
  - simpl. rewrite Htr at 1. now rewrite <- app_assoc.
Qed.

Lemma provider_chain_no_credentials rt env prompt content w :
  (forall provider, truthy (credential env provider) = false) ->
  provider_chain rt env prompt content w
  = ({| aiSummary := None; apiUsed := EmptyString |}, w).
Proof.
  intros Hnone.
  pose proof (proj2 (present_None _) (Hnone Gemini)) as HA.
  pose proof (proj2 (present_None _) (Hnone OpenAI)) as HB.
  pose proof (proj2 (present_None _) (Hnone Groq)) as HC.
  simpl in HA, HB, HC.
  unfold provider_chain, try_gemini, try_openai, try_groq, bind, ret.
  rewrite HA, HB, HC. reflexivity.
Qed.

(** A provider call of the run that returned a non-empty text is the
    one whose text is stored. *)
Lemma post_summaries_text_persisted
    (rt : Runtime) (env : Env) (req_body : CreateSummaryRequest) (w : World)
    (tid : string) (req : FetchRequest) (text : string) :
  transcriptId req_body = Some tid ->
  is_Some (transcripts (storage w) !! tid) ->
  In req (fetches (events_since w (snd (post_summaries rt env req_body w)))) ->
  fetch_outcome rt req = Ok (Some text) ->
  text <> EmptyString ->
  exists summary,
    fst (post_summaries rt env req_body w) = res_json (OfSummary summary)
    /\ summaries (storage (snd (post_summaries rt env req_body w))) !! summary_id summary
       = Some summary
    /\ summary_transcriptId summary = tid
    /\ prompt req_body = Some (summary_prompt summary)
    /\ summary_content summary = text
    /\ summary_editedContent summary = None.
Proof.
  intros Hid [transcript Ht] Hin Hout Hne.
  destruct (present (transcriptId req_body)) as [tid'|] eqn:Htid.
  2:{ destruct (post_summaries_guarded rt env req_body w) as [Hw _]; [auto|].
      rewrite Hw, events_since_refl in Hin. destruct Hin. }
  destruct (present (prompt req_body)) as [p|] eqn:Hp.
  2:{ destruct (post_summaries_guarded rt env req_body w) as [Hw _]; [auto|].
      rewrite Hw, events_since_refl in Hin. destruct Hin. }
  apply present_Some in Htid as Htid'. destruct Htid' as [Htid' _].
  assert (tid' = tid) as -> by congruence.
  rewrite (post_summaries_fetches rt env req_body w tid p transcript Htid Hp Ht) in Hin.
  rewrite (post_summaries_run rt env req_body w tid p transcript Htid Hp Ht).
  pose proof (provider_chain_refines rt env p (transcript_content transcript) w) as R.
  destruct (provider_chain rt env p (transcript_content transcript) w) as [l w1].
  cbv zeta in R. cbn [fst snd] in R. destruct R as (_ & _ & _ & _ & _ & Hai & _).
  apply in_map_iff in Hin as ([p0 req0] & Hreq & Hcall). simpl in Hreq. subst req0.
  destruct (chain_spec_configured _ _ _ _ _ _ _ Hcall) as (key & Hkey & _).
  rewrite (credential_truthy_guard _ _ _ Hkey).
  assert (text_of (fetch_outcome rt req) = Some text) as Htext
    by (apply text_of_Some; auto).
  rewrite (chain_spec_first_text _ _ _ _ _ _ _ _ Hcall Htext) in Hai.
  cbn [fmap option_fmap option_map fst] in Hai. rewrite Hai. cbv zeta. cbn [fst snd].
  eexists. split; [reflexivity|].
  rewrite createSummary_run. cbn [snd storage summaries summary_id created_summary].
  split; [apply lookup_insert_eq|].
  split; [reflexivity|].
  split; [apply present_Some in Hp as [Hp _]; exact Hp|].
  split; [|reflexivity].
  cbn [summary_content created_summary is_content].
  destruct text; [congruence | reflexivity].
Qed.

(** C1.  POST /api/summaries with the id of a stored transcript: when a
    provider call made for the request returns a non-empty text, the
    answer is a summary that is stored under its id, carries the
    transcript id and the prompt of the request and that text as
    content, and has no edited content.  This is the case whenever the
    prompt is not empty and some configured provider answers its request
    with a non-empty text: the content is then the non-empty text one of
    the calls returned. *)
Theorem post_summaries_persists_provider_text
    (rt : Runtime) (env : Env) (req_body : CreateSummaryRequest) (w : World)
    (tid : string) (transcript : Transcript) :
  transcriptId req_body = Some tid ->
  transcripts (storage w) !! tid = Some transcript ->
  let run := post_summaries rt env req_body w in
  (forall req text,
      In req (fetches (events_since w (snd run))) ->
      fetch_outcome rt req = Ok (Some text) ->
      text <> EmptyString ->
      exists summary,
        fst run = res_json (OfSummary summary)
        /\ summaries (storage (snd run)) !! summary_id summary = Some summary
        /\ summary_transcriptId summary = tid
        /\ prompt req_body = Some (summary_prompt summary)
        /\ summary_content summary = text
        /\ summary_editedContent summary = None)
  /\ (forall p provider key text,
        tid <> EmptyString ->
        prompt req_body = Some p ->
        p <> EmptyString ->
        present (credential env provider) = Some key ->
        fetch_outcome rt (request_of provider key p (transcript_content transcript))
        = Ok (Some text) ->
        text <> EmptyString ->
        exists summary req,
          fst run = res_json (OfSummary summary)
          /\ summaries (storage (snd run)) !! summary_id summary = Some summary
          /\ summary_transcriptId summary = tid
          /\ summary_prompt summary = p
          /\ summary_content summary <> EmptyString
          /\ In req (fetches (events_since w (snd run)))
          /\ fetch_outcome rt req = Ok (Some (summary_content summary))
          /\ summary_editedContent summary = None).
Proof.
  intros Hid Ht run. split.
  - intros req text Hin Hout Hne.
    apply (post_summaries_text_persisted rt env req_body w tid req text); eauto.
  - intros p provider key text Htid Hp Hpne Hkey Hout Hne.
    assert (present (transcriptId req_body) = Some tid) as Htid'.
    { rewrite Hid. destruct tid; [congruence | reflexivity]. }
    assert (present (prompt req_body) = Some p) as Hp'.
    { rewrite Hp. destruct p; [congruence | reflexivity]. }
    destruct (chain_spec_succeeds rt env p (transcript_content transcript) priority
                provider key text) as [[t q] Hres].
    { destruct provider; simpl; auto. }
    { exact Hkey. }
    { apply text_of_Some. auto. }
    destruct (chain_spec_result _ _ _ _ _ _ _ Hres) as (req & Hcall & Htext).
    apply text_of_Some in Htext as [Hreq Htne].
    assert (In req (fetches (events_since w (snd run)))) as Hin.
    { subst run.
      rewrite (post_summaries_fetches rt env req_body w tid p transcript Htid' Hp' Ht).
      apply in_map_iff. exists (q, req). auto. }
    destruct (post_summaries_text_persisted rt env req_body w tid req t)
      as (summary & Hrun & Hstored & Hst & Hsp & Hsc & Hse); eauto.
    exists summary, req. subst t.
    repeat split; auto. congruence.
Qed.

Lemma post_summaries_persists_provider_text_witness :
  exists summary,
    fst (post_summaries Fallback.rt Fallback.env Fallback.req_body Fallback.w)
    = res_json (OfSummary summary)
    /\ summaries (storage (snd (post_summaries Fallback.rt Fallback.env
                                  Fallback.req_body Fallback.w)))
         !! summary_id summary = Some summary
    /\ summary_transcriptId summary = "uuid-0"
    /\ prompt Fallback.req_body = Some (summary_prompt summary)
    /\ summary_content summary = "- Ship by Friday"
    /\ summary_editedContent summary = None.
Proof.
  refine (proj1 (post_summaries_persists_provider_text Fallback.rt Fallback.env
                   Fallback.req_body Fallback.w "uuid-0" Mail.transcript eq_refl _)
            (openai_request "o-key" "list action items" "Alice: ship by Friday.")
            "- Ship by Friday" _ eq_refl _).
  - vm_compute. reflexivity.
  - vm_compute. right. left. reflexivity.
  - discriminate.
Defined.

(** C2.  The calls of the three provider blocks are the calls of the
    spec's chain over Gemini, OpenAI, Groq: in that order and none
    twice, each to a provider whose key is configured, ending at the
    first call that returns a non-empty text (an absent or empty text is
    a failure and the chain goes on), which the locals then hold with
    the provider's name.  So when Gemini is configured and gives no text
    and OpenAI gives one, the summary is OpenAI's, [apiUsed] is OpenAI,
    the calls are those two and Groq is not called. *)
Theorem provider_chain_priority_order
    (rt : Runtime) (env : Env) (prompt content : string) (w : World) :
  let run := provider_chain rt env prompt content w in
  let spec := chain_spec rt env prompt content priority in
  fetches (events_since w (snd run)) = map snd (fst spec)
  /\ sublist (map fst (fst spec)) priority
  /\ NoDup (map fst (fst spec))
  /\ (forall p req, In (p, req) (fst spec) ->
        exists key, present (credential env p) = Some key
                    /\ req = request_of p key prompt content)
  /\ match snd spec with
     | Some (t, p) =>
         exists before req,
           fst spec = before ++ [(p, req)]
           /\ text_of (fetch_outcome rt req) = Some t
           /\ Forall (fun c => text_of (fetch_outcome rt (snd c)) = None) before
     | None => Forall (fun c => text_of (fetch_outcome rt (snd c)) = None) (fst spec)
     end
  /\ present (aiSummary (fst run)) = fst <$> snd spec
  /\ (forall t p, snd spec = Some (t, p) ->
        aiSummary (fst run) = Some t /\ apiUsed (fst run) = name_of p)
  /\ (forall kA kB t,
        present (GOOGLE_API_KEY env) = Some kA ->
        present (OPENAI_API_KEY env) = Some kB ->
        text_of (fetch_outcome rt (gemini_request kA prompt content)) = None ->
        text_of (fetch_outcome rt (openai_request kB prompt content)) = Some t ->
        aiSummary (fst run) = Some t
        /\ apiUsed (fst run) = "OpenAI"
        /\ fetches (events_since w (snd run))
           = [gemini_request kA prompt content; openai_request kB prompt content]
        /\ forall kC, ~ In (groq_request kC prompt content)
                          (fetches (events_since w (snd run)))).
Proof.
  intros run spec.
  destruct (provider_chain_refines rt env prompt content w)
    as (_ & Hf & _ & _ & _ & Hai & Hname).
  fold run spec in Hf, Hai, Hname. fold (events_since w (snd run)) in Hf.
  split; [exact Hf|].
  split; [apply chain_spec_sublist|].
  split; [eapply sublist_NoDup; [apply NoDup_priority | apply chain_spec_sublist]|].
  split; [apply chain_spec_configured|].
  split; [apply chain_spec_shape|].
  split; [exact Hai|].
  split; [exact Hname|].
  intros kA kB t HA HB HfA HtB.
  assert (spec = ([(Gemini, gemini_request kA prompt content);
                   (OpenAI, openai_request kB prompt content)], Some (t, OpenAI))) as Hspec.
  { unfold spec, priority. simpl. rewrite HA. simpl. rewrite HfA, HB. simpl.
    rewrite HtB. reflexivity. }
  destruct (Hname t OpenAI) as [H1 H2]; [now rewrite Hspec|].
  rewrite Hf, Hspec. simpl.
  repeat split; try assumption.
  intros kC [H|[H|[]]]; discriminate H.
Qed.

Lemma provider_chain_priority_order_witness :
  let run := provider_chain Fallback.rt Fallback.env "list action items"
               "Alice: ship by Friday." Fallback.w in
  aiSummary (fst run) = Some "- Ship by Friday"
  /\ apiUsed (fst run) = "OpenAI"
  /\ fetches (events_since Fallback.w (snd run))
     = [gemini_request "g-key" "list action items" "Alice: ship by Friday.";
        openai_request "o-key" "list action items" "Alice: ship by Friday."]
  /\ forall kC, ~ In (groq_request kC "list action items" "Alice: ship by Friday.")
                    (fetches (events_since Fallback.w (snd run))).
Proof.
  apply (provider_chain_priority_order Fallback.rt Fallback.env "list action items"
           "Alice: ship by Friday." Fallback.w); reflexivity.
Defined.

(** C3, amended.  A request whose transcript id is not in the store makes
    no provider call and changes nothing; it is answered 404 "Transcript
    not found" when the id and the prompt are both non-empty, and 400
    when one of them is empty or missing. *)
Theorem post_summaries_missing_transcript
    (rt : Runtime) (env : Env) (req_body : CreateSummaryRequest) (w : World)
    (tid : string) :
  transcriptId req_body = Some tid ->
  transcripts (storage w) !! tid = None ->
  let run := post_summaries rt env req_body w in
  snd run = w
  /\ fetches (events_since w (snd run)) = []
  /\ (truthy (transcriptId req_body) = true -> truthy (prompt req_body) = true ->
      fst run = res_status 404 "Transcript not found")
  /\ (truthy (transcriptId req_body) = false \/ truthy (prompt req_body) = false ->
      status (fst run) = 400).
Proof.
  intros Hid Hnone run.
  assert (snd run = w) as Hw.
  { apply post_summaries_guarded.
    destruct (present (transcriptId req_body)) as [tid'|] eqn:Htid; [|auto].
    right. right. exists tid'. split; [reflexivity|].
    apply present_Some in Htid as [Htid _]. congruence. }
  split; [exact Hw|].
  split; [rewrite Hw; now rewrite events_since_refl|].
  subst run. unfold post_summaries, getTranscript, get_storage. split.
  - intros H1 H2.
    destruct (present (transcriptId req_body)) as [tid'|] eqn:Htid.
    2:{ apply present_None in Htid. congruence. }
    destruct (present (prompt req_body)) as [p|] eqn:Hp.
    2:{ apply present_None in Hp. congruence. }
    apply present_Some in Htid as [Htid _].
    assert (tid' = tid) as -> by congruence.
    simpl. rewrite Hnone. reflexivity.
  - intros [H|H]; apply present_None in H; rewrite H; [reflexivity|].
    destruct (present (transcriptId req_body)); reflexivity.
Qed.

Lemma post_summaries_missing_transcript_witness :
  let req_body := {| transcriptId := Some "no-such-id";
                     prompt := Some "list action items" |} in
  let run := post_summaries Fallback.rt Fallback.env req_body Fallback.w in
  fst run = res_status 404 "Transcript not found" /\ snd run = Fallback.w.
Proof.
  destruct (post_summaries_missing_transcript Fallback.rt Fallback.env
              {| transcriptId := Some "no-such-id"; prompt := Some "list action items" |}
              Fallback.w "no-such-id") as (Hw & _ & H404 & _).
  - reflexivity.
  - vm_compute. reflexivity.
  - split; [apply H404; reflexivity | exact Hw].
Defined.

(** C3 as stated fails at the empty prompt: the transcript id is not in
    the store and the answer is the 400 of the guard on the prompt. *)
Lemma post_summaries_missing_transcript_empty_prompt :
  let req_body := {| transcriptId := Some "no-such-id"; prompt := Some EmptyString |} in
  let run := post_summaries Fallback.rt Fallback.env req_body Fallback.w in
  transcripts (storage Fallback.w) !! "no-such-id" = None
  /\ fst run = res_status 400 "prompt is required"
  /\ status (fst run) <> 404.
Proof.
  vm_compute. repeat split. discriminate.
Qed.

(** C4.  With no provider key configured POST /api/summaries makes no
    provider call and never answers with the all-providers-failed
    message; a request that passes the field guards and names a stored
    transcript is answered 500 with the no-key message, and the world is
    left as it was. *)
Theorem post_summaries_no_credentials
    (rt : Runtime) (env : Env) (req_body : CreateSummaryRequest) (w : World) :
  (forall provider, truthy (credential env provider) = false) ->
  let run := post_summaries rt env req_body w in
  fetches (events_since w (snd run)) = []
  /\ fst run <> res_status 500 all_failed_message
  /\ (forall tid p,
        present (transcriptId req_body) = Some tid ->
        present (prompt req_body) = Some p ->
        is_Some (transcripts (storage w) !! tid) ->
        fst run = res_status 500 no_key_message /\ snd run = w).
Proof.
  intros Hnone run.
  assert (forall tid p transcript,
            present (transcriptId req_body) = Some tid ->
            present (prompt req_body) = Some p ->
            transcripts (storage w) !! tid = Some transcript ->
            run = (res_status 500 no_key_message, w)) as Hvalid.
  { intros tid p transcript Htid Hp Ht. subst run.
    rewrite (post_summaries_run rt env req_body w tid p transcript Htid Hp Ht).
    rewrite (provider_chain_no_credentials _ _ _ _ _ Hnone).
    pose proof (Hnone Gemini) as HA. pose proof (Hnone OpenAI) as HB.
    pose proof (Hnone Groq) as HC. simpl in HA, HB, HC.
    rewrite HA, HB, HC. reflexivity. }
  assert (snd run = w
          /\ (status (fst run) = 400
              \/ fst run = res_status 404 "Transcript not found"
              \/ fst run = res_status 500 no_key_message)) as [Hw Hres].
  { destruct (present (transcriptId req_body)) as [tid|] eqn:Htid.
    2:{ destruct (post_summaries_guarded rt env req_body w) as [? [?|?]]; auto. }
    destruct (present (prompt req_body)) as [p|] eqn:Hp.
    2:{ destruct (post_summaries_guarded rt env req_body w) as [? [?|?]]; auto. }
    destruct (transcripts (storage w) !! tid) as [transcript|] eqn:Ht.
    2:{ destruct (post_summaries_guarded rt env req_body w) as [? [?|?]]; eauto 6. }
    rewrite (Hvalid tid p transcript); auto. }
  split; [rewrite Hw; now rewrite events_since_refl|].
  split.
  - intros H. rewrite H in Hres. vm_compute in Hres.
    destruct Hres as [Hr|[Hr|Hr]]; discriminate Hr.
  - intros tid p Htid Hp [transcript Ht].
    rewrite (Hvalid tid p transcript Htid Hp Ht). auto.
Qed.

Lemma post_summaries_no_credentials_witness :
  let run := post_summaries Fallback.rt NoKeys.env Fallback.req_body Fallback.w in
  fst run = res_status 500 no_key_message
  /\ snd run = Fallback.w
  /\ fetches (events_since Fallback.w (snd run)) = []
  /\ fst run <> res_status 500 all_failed_message.
Proof.
  destruct (post_summaries_no_credentials Fallback.rt NoKeys.env Fallback.req_body
              Fallback.w) as (Hcalls & Hnot & Hkey).
  - intros []; reflexivity.
  - destruct (Hkey "uuid-0" "list action items") as [Hres Hw].
    + reflexivity.
    + reflexivity.
    + eexists. vm_compute. reflexivity.
    + repeat split; assumption.
Defined.

(** ** POST /api/email/send *)

Lemma post_email_send_run rt env req_body w :
  post_email_send rt env req_body w =
  match insertEmailShareSchema_parse rt req_body with
  | inl zodError =>
      (res_status 400 (zod_message zodError),
       emitted w [EvConsole error ["Email sending error:"; zod_message zodError]])
  | inr emailData =>
  match summaries (storage w) !! ie_summaryId emailData with
  | None => (res_status 404 "Summary not found", w)
  | Some summary =>
  match transcripts (storage w) !! summary_transcriptId summary with
  | None => (res_status 404 "Transcript not found", w)
  | Some transcript =>
  match JSON_parse rt (ie_recipients emailData) with
  | None =>
      (res_status 500 "Failed to send email",
       emitted w [EvConsole error ["Email sending error:"; "SyntaxError"]])
  | Some (VArr (r :: rs)) =>
      match Resend_new rt (RESEND_API_KEY env) with
      | Some e =>
          (res_status 500 "Failed to send email",
           emitted w [EvConsole error ["Email sending error:"; e]])
      | None => dispatch rt env emailData summary transcript (r :: rs) w
      end
  | Some _ => (res_status 400 "Invalid recipients", w)
  end end end end.
Proof.
  unfold post_email_send, dispatch, getSummary, getTranscript, get_storage,
    email_catch_zod, email_catch, send, console, emit, emitted.
  destruct (insertEmailShareSchema_parse rt req_body) as [z|d]; [reflexivity|].
  simpl. destruct (summaries (storage w) !! ie_summaryId d) as [s|]; [|reflexivity].
  simpl. destruct (transcripts (storage w) !! summary_transcriptId s) as [t|]; [|reflexivity].
  destruct (JSON_parse rt (ie_recipients d)) as [[| | | | |[|r rs]|]|]; try reflexivity.
  destruct (Resend_new rt (RESEND_API_KEY env)); [reflexivity|].
  simpl. destruct (resend_emails_send rt _ _) as [e|[e|]]; reflexivity.
Qed.

Lemma dispatch_run rt env emailData summary transcript recipients w :
  let key := RESEND_API_KEY env in
  let mail := mail_of emailData summary transcript recipients in
  let run := dispatch rt env emailData summary transcript recipients w in
  match resend_emails_send rt key mail with
  | SendThrew e =>
      fst run = res_status 500 "Failed to send email"
      /\ storage (snd run) = storage w
      /\ events_since w (snd run)
         = [EvSend key mail; EvConsole error ["Email sending error:"; e]]
  | SendResult (Some e) =>
      fst run = res_status 500 ("Resend error: " +:+ resend_error_text e)
      /\ storage (snd run) = storage w
      /\ events_since w (snd run)
         = [EvSend key mail; EvConsole error ["Resend API error:"; error_toString e]]
  | SendResult None =>
      exists share,
        fst run = res_json (OfEmailShare share)
        /\ storage (snd run)
           = {| transcripts := transcripts (storage w);
                summaries := summaries (storage w);
                emailShares := <[share_id share := share]> (emailShares (storage w)) |}
        /\ events_since w (snd run) = [EvSend key mail; EvSet EmailShares (share_id share)]
  end.
Proof.
  unfold dispatch. cbv zeta.
  destruct (resend_emails_send rt _ _) as [e|[e|]]; cbn [fst snd].
  - repeat split. apply events_since_app. simpl. now rewrite <- app_assoc.
  - repeat split. apply events_since_app. simpl. now rewrite <- app_assoc.
  - eexists. split; [reflexivity|]. rewrite createEmailShare_run. cbn [snd storage].
    split; [reflexivity|]. apply events_since_app. simpl. now rewrite <- app_assoc.
Qed.

Lemma dispatch_sends rt env emailData summary transcript recipients w :
  sends (events_since w (snd (dispatch rt env emailData summary transcript recipients w)))
  = [mail_of emailData summary transcript recipients].
Proof.
  pose proof (dispatch_run rt env emailData summary transcript recipients w) as D.
  cbv zeta in D.
  destruct (resend_emails_send rt _ _) as [e|[e|]].
  - destruct D as (_ & _ & ->). reflexivity.
  - destruct D as (_ & _ & ->). reflexivity.
  - destruct D as (share & _ & _ & ->). reflexivity.
Qed.

(** The mail of a request that passes validation. *)
Lemma post_email_send_mail rt env req_body w emailData summary transcript r rs :
  insertEmailShareSchema_parse rt req_body = inr emailData ->
  summaries (storage w) !! ie_summaryId emailData = Some summary ->
  transcripts (storage w) !! summary_transcriptId summary = Some transcript ->
  JSON_parse rt (ie_recipients emailData) = Some (VArr (r :: rs)) ->
  Resend_new rt (RESEND_API_KEY env) = None ->
  sends (events_since w (snd (post_email_send rt env req_body w)))
  = [mail_of emailData summary transcript (r :: rs)].
Proof.
  intros Hparse Hs Ht Hr Hnew.
  rewrite post_email_send_run, Hparse, Hs, Ht, Hr, Hnew.
  apply dispatch_sends.
Qed.

Lemma mail_of_composed emailData summary transcript recipients :
  mail_of emailData summary transcript recipients =
  {| mail_from := "no-reply@resend.dev";
     mail_to := recipients;
     mail_subject := ie_subject emailData;
     mail_text := composed_text (ie_message emailData) summary;
     mail_attachments := composed_attachments (ie_includeTranscript emailData) transcript |}.
Proof.
  unfold mail_of, emailBody, summaryContent, attachments, composed_text,
    composed_attachments, or_default, nonempty_or, present, separator.
  f_equal.
  - destruct (ie_message emailData) as [[|c m]|];
      destruct (summary_editedContent summary) as [[|c' e]|]; reflexivity.
  - destruct (ie_includeTranscript emailData) as [[|]|]; try reflexivity.
    destruct (transcript_content transcript); [reflexivity|].
    destruct (transcript_filename transcript) as [[|c f]|]; reflexivity.
Qed.

(** C5, amended.  Validation goes in this order: 404 "Summary not found"
    when the summary is absent; then 404 "Transcript not found" when the
    transcript the summary links to is absent; then 400 "Invalid
    recipients" when the recipients text parses to something that is no
    array or to the empty array.  In each of these cases the world is
    left as it was and no mail is sent. *)
Theorem post_email_send_validation_order
    (rt : Runtime) (env : Env) (req_body : value) (w : World)
    (emailData : InsertEmailShare) :
  insertEmailShareSchema_parse rt req_body = inr emailData ->
  let run := post_email_send rt env req_body w in
  match summaries (storage w) !! ie_summaryId emailData with
  | None =>
      fst run = res_status 404 "Summary not found"
      /\ snd run = w /\ sends (events_since w (snd run)) = []
  | Some summary =>
      match transcripts (storage w) !! summary_transcriptId summary with
      | None =>
          fst run = res_status 404 "Transcript not found"
          /\ snd run = w /\ sends (events_since w (snd run)) = []
      | Some _ =>
          forall recipients,
            JSON_parse rt (ie_recipients emailData) = Some recipients ->
            Array_isArray recipients = false \/ recipients = VArr [] ->
            fst run = res_status 400 "Invalid recipients"
            /\ snd run = w /\ sends (events_since w (snd run)) = []
      end
  end.
Proof.
  intros Hparse run. subst run. rewrite post_email_send_run, Hparse.
  destruct (summaries (storage w) !! ie_summaryId emailData) as [summary|].
  2:{ simpl. now rewrite events_since_refl. }
  destruct (transcripts (storage w) !! summary_transcriptId summary) as [transcript|].
  2:{ simpl. now rewrite events_since_refl. }
  intros recipients -> Hbad.
  destruct recipients as [| | | | |[|r rs]|]; simpl;
    try (now rewrite events_since_refl).
  destruct Hbad as [Hbad|Hbad]; discriminate Hbad.
Qed.

Lemma post_email_send_validation_order_witness :
  let run := post_email_send Mail.rt Mail.env
               (Mail.request "uuid-2" "[]" VUndefined VUndefined) Mail.w in
  fst run = res_status 400 "Invalid recipients"
  /\ snd run = Mail.w /\ sends (events_since Mail.w (snd run)) = [].
Proof.
  refine (post_email_send_validation_order Mail.rt Mail.env
            (Mail.request "uuid-2" "[]" VUndefined VUndefined) Mail.w
            _ eq_refl (VArr []) eq_refl _).
  right. reflexivity.
Defined.

(** C5 as stated fails on a list that holds no address: the array is not
    empty, so the request passes validation and the mail goes out to
    it. *)
Lemma post_email_send_accepts_any_nonempty_array :
  let req_body := Mail.request "uuid-2" Sample.not_an_address VUndefined VUndefined in
  let run := post_email_send Mail.rt Mail.env req_body Mail.w in
  JSON_parse Mail.rt Sample.not_an_address = Some (VArr [VStr "not an address"])
  /\ status (fst run) = 200
  /\ map mail_to (sends (events_since Mail.w (snd run))) = [[VStr "not an address"]]
  /\ fst run <> res_status 400 "Invalid recipients".
Proof.
  vm_compute. repeat split. discriminate.
Qed.

(** C6, amended.  The mail of a request that passes validation goes to
    the parsed recipients with the request's subject; its text is the
    message and the separator line when the message is not empty, then
    "MEETING SUMMARY", an empty line, and the edited content when that is
    not empty, else the content; the transcript is attached as
    text/plain when [includeTranscript] is true and its content is not
    empty, under its filename when that is not empty, else as
    "transcript.txt". *)
Theorem post_email_send_composition
    (rt : Runtime) (env : Env) (req_body : value) (w : World)
    (emailData : InsertEmailShare) (summary : Summary) (transcript : Transcript)
    (r : value) (rs : list value) :
  insertEmailShareSchema_parse rt req_body = inr emailData ->
  summaries (storage w) !! ie_summaryId emailData = Some summary ->
  transcripts (storage w) !! summary_transcriptId summary = Some transcript ->
  JSON_parse rt (ie_recipients emailData) = Some (VArr (r :: rs)) ->
  Resend_new rt (RESEND_API_KEY env) = None ->
  sends (events_since w (snd (post_email_send rt env req_body w)))
  = [ {| mail_from := "no-reply@resend.dev";
         mail_to := r :: rs;
         mail_subject := ie_subject emailData;
         mail_text := composed_text (ie_message emailData) summary;
         mail_attachments :=
           composed_attachments (ie_includeTranscript emailData) transcript |} ].
Proof.
  intros Hparse Hs Ht Hr Hnew.
  rewrite (post_email_send_mail rt env req_body w emailData summary transcript r rs);
    try assumption.
  now rewrite mail_of_composed.
Qed.

Lemma post_email_send_composition_witness :
  sends (events_since Edited.revised
           (snd (post_email_send Mail.rt Mail.env
                   (Mail.request "uuid-2" Sample.one_address (VStr "FYI") (VBool true))
                   Edited.revised)))
  = [ {| mail_from := "no-reply@resend.dev";
         mail_to := [VStr "a@x.com"];
         mail_subject := "Summary of the meeting";
         mail_text := "FYI" +:+ LF +:+ LF +:+ "---" +:+ LF +:+ LF +:+ "MEETING SUMMARY"
                      +:+ LF +:+ LF +:+ "- Ship by Friday (owner: Alice)";
         mail_attachments := Some [ {| att_filename := "transcript.txt";
                                       att_content := "Alice: ship by Friday.";
                                       att_type := "text/plain" |} ] |} ].
Proof.
  refine (post_email_send_composition Mail.rt Mail.env
            (Mail.request "uuid-2" Sample.one_address (VStr "FYI") (VBool true))
            Edited.revised _
            (edited Mail.summary "- Ship by Friday (owner: Alice)") Mail.transcript
            (VStr "a@x.com") [] eq_refl _ _ eq_refl eq_refl).
  - vm_compute. reflexivity.
  - vm_compute. reflexivity.
Defined.

(** C6 as stated fails once the edited content was set to the empty
    string: it is set, and the mail still carries the generated content
    where the spec's body would carry the empty one. *)
Lemma post_email_send_empty_edit_sends_content :
  let req_body := Mail.request "uuid-2" Sample.one_address VUndefined VUndefined in
  let run := post_email_send Mail.rt Mail.env req_body Edited.cleared in
  summaries (storage Edited.cleared) !! "uuid-2" = Some (edited Mail.summary EmptyString)
  /\ map mail_text (sends (events_since Edited.cleared (snd run)))
     = ["MEETING SUMMARY" +:+ LF +:+ LF +:+ "- Ship by Friday"]
  /\ map mail_text (sends (events_since Edited.cleared (snd run)))
     <> [emailBody_spec None (edited Mail.summary EmptyString)].
Proof.
  vm_compute. repeat split. discriminate.
Qed.

Lemma quiet_send_then_record rt env w r w' :
  quiet w w' -> send_then_record rt env w (r, w').
Proof.
  intros (Hs & Hn & Hq). split; cbn [fst snd].
  - intros key mail e H. destruct (Hn _ _ H).
  - left. auto.
Qed.

Lemma dispatch_send_then_record rt env emailData summary transcript recipients w :
  send_then_record rt env w (dispatch rt env emailData summary transcript recipients w).
Proof.
  pose proof (dispatch_run rt env emailData summary transcript recipients w) as D.
  cbv zeta in D. unfold send_then_record. cbv zeta.
  destruct (resend_emails_send rt (RESEND_API_KEY env)
              (mail_of emailData summary transcript recipients)) as [e|[e|]] eqn:Hsend.
  - destruct D as (Hr & Hs & He). rewrite He, Hr, Hs. split.
    + intros key mail e' [[= <- <-]|[H|[]]] Herr; [congruence | discriminate H].
    + left. split; [reflexivity|]. intros m k [H|[H|[]]]; discriminate H.
  - destruct D as (Hr & Hs & He). rewrite He, Hr, Hs. split.
    + intros key mail e' [[= <- <-]|[H|[]]] Herr; [|discriminate H].
      split; [|reflexivity]. congruence.
    + left. split; [reflexivity|]. intros m k [H|[H|[]]]; discriminate H.
  - destruct D as (share & Hr & Hs & He). rewrite He, Hr, Hs. split.
    + intros key mail e' [[= <- <-]|[H|[]]] Herr; [congruence | discriminate H].
    + right. exists (mail_of emailData summary transcript recipients), share. auto.
Qed.

(** C7.  In every run of POST /api/email/send: when the mail provider
    answers the send with an error, the answer is the 500 that carries
    it and the storage is as before; and the storage changes, and a map
    entry is set, only in a run whose events are the send followed by
    the set of the new share, the send having succeeded, the answer
    being that share. *)
Theorem post_email_send_records_after_send
    (rt : Runtime) (env : Env) (req_body : value) (w : World) :
  let run := post_email_send rt env req_body w in
  let evs := events_since w (snd run) in
  (forall key mail e,
      In (EvSend key mail) evs ->
      resend_emails_send rt key mail = SendResult (Some e) ->
      fst run = res_status 500 ("Resend error: " +:+ resend_error_text e)
      /\ storage (snd run) = storage w)
  /\ ((storage (snd run) = storage w /\ forall m k, ~ In (EvSet m k) evs)
      \/ exists mail share,
           evs = [EvSend (RESEND_API_KEY env) mail; EvSet EmailShares (share_id share)]
           /\ resend_emails_send rt (RESEND_API_KEY env) mail = SendResult None
           /\ fst run = res_json (OfEmailShare share)
           /\ storage (snd run)
              = {| transcripts := transcripts (storage w);
                   summaries := summaries (storage w);
                   emailShares := <[share_id share := share]> (emailShares (storage w)) |}).
Proof.
  change (send_then_record rt env w (post_email_send rt env req_body w)).
  rewrite post_email_send_run.
  destruct (insertEmailShareSchema_parse rt req_body) as [z|d];
    [apply quiet_send_then_record, quiet_console|].
  destruct (summaries (storage w) !! ie_summaryId d) as [s|];
    [|apply quiet_send_then_record, quiet_refl].
  destruct (transcripts (storage w) !! summary_transcriptId s) as [t|];
    [|apply quiet_send_then_record, quiet_refl].
  destruct (JSON_parse rt (ie_recipients d)) as [[| | | | |[|r rs]|]|];
    try apply quiet_send_then_record, quiet_refl;
    [|apply quiet_send_then_record, quiet_console].
  destruct (Resend_new rt (RESEND_API_KEY env)) as [e|];
    [apply quiet_send_then_record, quiet_console|].
  apply dispatch_send_then_record.
Qed.

Lemma post_email_send_records_after_send_witness :
  let run := post_email_send Quota.rt Mail.env
               (Mail.request "uuid-2" Sample.one_address VUndefined VUndefined) Mail.w in
  fst run = res_status 500 "Resend error: domain is not verified"
  /\ storage (snd run) = storage Mail.w.
Proof.
  refine (proj1 (post_email_send_records_after_send Quota.rt Mail.env
                   (Mail.request "uuid-2" Sample.one_address VUndefined VUndefined) Mail.w)
            (Some "re-key")
            (mail_of {| ie_summaryId := "uuid-2"; ie_recipients := Sample.one_address;
                        ie_subject := "Summary of the meeting"; ie_message := None;
                        ie_includeTranscript := None |}
                     Mail.summary Mail.transcript [VStr "a@x.com"])
            {| error_message := Some "domain is not verified";
               error_toString := "[object Object]" |} _ eq_refl).
  vm_compute. left. reflexivity.
Defined.

(** ** Upstream failures *)

(** C8, amended.  An error answer of the mail provider to the send of a
    validated request is answered 500 with "Resend error: " and the
    error's message (what the error prints as when it has none).  When a
    key is configured and no provider call of a summary request returns
    a text, the answer is 500 with the fixed all-providers-failed
    message, whatever the providers answered. *)
Theorem upstream_failure_responses :
  (forall (rt : Runtime) (env : Env) (req_body : value) (w : World)
          (emailData : InsertEmailShare) (summary : Summary) (transcript : Transcript)
          (r : value) (rs : list value) (e : ResendError),
      insertEmailShareSchema_parse rt req_body = inr emailData ->
      summaries (storage w) !! ie_summaryId emailData = Some summary ->
      transcripts (storage w) !! summary_transcriptId summary = Some transcript ->
      JSON_parse rt (ie_recipients emailData) = Some (VArr (r :: rs)) ->
      Resend_new rt (RESEND_API_KEY env) = None ->
      resend_emails_send rt (RESEND_API_KEY env)
        (mail_of emailData summary transcript (r :: rs)) = SendResult (Some e) ->
      fst (post_email_send rt env req_body w)
      = res_status 500
          ("Resend error: " +:+ nonempty_or (error_message e) (error_toString e)))
  /\ (forall (rt : Runtime) (env : Env) (req_body : CreateSummaryRequest) (w : World)
             (tid p : string) (transcript : Transcript),
      present (transcriptId req_body) = Some tid ->
      present (prompt req_body) = Some p ->
      transcripts (storage w) !! tid = Some transcript ->
      (exists provider, truthy (credential env provider) = true) ->
      (forall req, In req (fetches (events_since w (snd (post_summaries rt env req_body w)))) ->
                   text_of (fetch_outcome rt req) = None) ->
      fst (post_summaries rt env req_body w) = res_status 500 all_failed_message).
Proof.
  split.
  - intros rt env req_body w d s t r rs e Hparse Hs Ht Hr Hnew Hsend.
    rewrite post_email_send_run, Hparse, Hs, Ht, Hr, Hnew.
    unfold dispatch. cbv zeta. rewrite Hsend. cbn [fst].
    unfold resend_error_text, or_default, nonempty_or, present.
    destruct (error_message e) as [[|c m]|]; reflexivity.
  - intros rt env req_body w tid p t Htid Hp Ht [provider Hkey] Hfail.
    rewrite (post_summaries_fetches rt env req_body w tid p t Htid Hp Ht) in Hfail.
    rewrite (post_summaries_run rt env req_body w tid p t Htid Hp Ht).
    pose proof (provider_chain_refines rt env p (transcript_content t) w) as R.
    destruct (provider_chain rt env p (transcript_content t) w) as [l w1].
    cbv zeta in R. cbn [fst snd] in R. destruct R as (_ & _ & _ & _ & _ & Hai & _).
    assert (negb (truthy (GOOGLE_API_KEY env)) && negb (truthy (OPENAI_API_KEY env))
            && negb (truthy (groqApiKey env)) = false) as ->.
    { destruct provider; simpl in Hkey; rewrite Hkey; simpl;
        rewrite ?andb_false_r; reflexivity. }
    destruct (snd (chain_spec rt env p (transcript_content t) priority))
      as [[text q]|] eqn:Hres.
    + destruct (chain_spec_result _ _ _ _ _ _ _ Hres) as (req & Hin & Htext).
      rewrite (Hfail req) in Htext; [discriminate|].
      apply in_map_iff. exists (q, req). auto.
    + cbn in Hai. rewrite Hai. reflexivity.
Qed.

Lemma upstream_failure_responses_witness :
  fst (post_email_send Quota.rt Mail.env
         (Mail.request "uuid-2" Sample.one_address VUndefined VUndefined) Mail.w)
  = res_status 500 "Resend error: domain is not verified"
  /\ fst (post_summaries Quota.rt Quota.env Fallback.req_body Quota.w)
     = res_status 500 all_failed_message.
Proof.
  split.
  - refine (proj1 upstream_failure_responses Quota.rt Mail.env
              (Mail.request "uuid-2" Sample.one_address VUndefined VUndefined) Mail.w _
              Mail.summary Mail.transcript
              (VStr "a@x.com") [] _ eq_refl _ _ eq_refl eq_refl eq_refl).
    + vm_compute. reflexivity.
    + vm_compute. reflexivity.
  - refine (proj2 upstream_failure_responses Quota.rt Quota.env Fallback.req_body Quota.w
              "uuid-0" "list action items" Mail.transcript
              eq_refl eq_refl _ _ _).
    + vm_compute. reflexivity.
    + exists Gemini. reflexivity.
    + vm_compute. intros req [<-|[]]. reflexivity.
Defined.

(** C8 as stated fails for the providers of summaries: Gemini's error
    text and name reach the console, and the caller gets the fixed
    message, which holds neither. *)
Lemma post_summaries_hides_provider_error :
  let run := post_summaries Quota.rt Quota.env Fallback.req_body Quota.w in
  fetch_outcome Quota.rt
    (gemini_request "g-key" "list action items" "Alice: ship by Friday.")
  = NotOk "quota exceeded"
  /\ fst run = res_status 500 "Failed to generate summary with available AI services"
  /\ String.index 0 "quota exceeded" "Failed to generate summary with available AI services"
     = None
  /\ String.index 0 "Gemini" "Failed to generate summary with available AI services"
     = None
  /\ In (EvConsole warn ["Google Gemini API failed, trying OpenAI..."; "quota exceeded"])
        (events_since Quota.w (snd run)).
Proof.
  vm_compute. repeat split. right. left. reflexivity.
Qed.

(** ** PATCH /api/summaries/:id *)

(** C9.  After an edit of a stored summary with the text [x], reading
    the summary gives it with [x] as edited content and with its
    content, id, transcript id, prompt and creation time as before. *)
Theorem patch_then_get_summary
    (id x : string) (w : World) (summary : Summary) :
  summaries (storage w) !! id = Some summary ->
  let w1 := snd (patch_summary id (VStr x) w) in
  exists summary',
    fst (get_summary id w1) = res_json (OfSummary summary')
    /\ getSummary id w1 = (Some summary', w1)
    /\ fst (updateSummaryContent id x w) = Some summary'
    /\ summary_editedContent summary' = Some x
    /\ summary_content summary' = summary_content summary
    /\ summary_id summary' = summary_id summary
    /\ summary_transcriptId summary' = summary_transcriptId summary
    /\ summary_prompt summary' = summary_prompt summary
    /\ summary_createdAt summary' = summary_createdAt summary.
Proof.
  intros Hs w1. subst w1. exists (edited summary x).
  unfold patch_summary, get_summary, getSummary, get_storage. cbn [bind].
  rewrite updateSummaryContent_run, Hs. cbn [fst snd storage summaries ret].
  rewrite lookup_insert_eq. repeat split.
Qed.

Lemma patch_then_get_summary_witness :
  exists summary',
    fst (get_summary "uuid-2" Edited.revised) = res_json (OfSummary summary')
    /\ summary_editedContent summary' = Some "- Ship by Friday (owner: Alice)"
    /\ summary_content summary' = "- Ship by Friday".
Proof.
  destruct (patch_then_get_summary "uuid-2" "- Ship by Friday (owner: Alice)" Mail.w
              Mail.summary)
    as (summary' & Hget & _ & _ & Hedited & Hcontent & _).
  - vm_compute. reflexivity.
  - exists summary'. split; [exact Hget|]. split; [exact Hedited | exact Hcontent].
Defined.

(** C10.  An edit is answered 400 exactly when the edited content is no
    string; every string, the empty one too, is stored as the edited
    content.  An empty edited content is then passed over by the mail:
    its body is the one of the summary with no edited content. *)
Theorem empty_edit_accepted_and_ignored_by_mail :
  (forall (id : string) (editedContent : value) (w : World),
      status (fst (patch_summary id editedContent w)) = 400
      <-> typeof_string editedContent = false)
  /\ (forall (id x : string) (w : World) (summary : Summary),
        summaries (storage w) !! id = Some summary ->
        fst (patch_summary id (VStr x) w) = res_json (OfSummary (edited summary x))
        /\ summaries (storage (snd (patch_summary id (VStr x) w))) !! id
           = Some (edited summary x))
  /\ (forall (summary : Summary) (emailData : InsertEmailShare),
        summaryContent (edited summary EmptyString) = summary_content summary
        /\ emailBody emailData (edited summary EmptyString)
           = emailBody emailData (unedited summary))
  /\ (forall (rt : Runtime) (env : Env) (req_body : value) (w : World)
             (emailData : InsertEmailShare) (summary : Summary) (transcript : Transcript)
             (r : value) (rs : list value),
        insertEmailShareSchema_parse rt req_body = inr emailData ->
        summaries (storage w) !! ie_summaryId emailData = Some summary ->
        transcripts (storage w) !! summary_transcriptId summary = Some transcript ->
        JSON_parse rt (ie_recipients emailData) = Some (VArr (r :: rs)) ->
        Resend_new rt (RESEND_API_KEY env) = None ->
        let w1 := snd (patch_summary (ie_summaryId emailData) (VStr EmptyString) w) in
        map mail_text (sends (events_since w1 (snd (post_email_send rt env req_body w1))))
        = [emailBody emailData (unedited summary)]).
Proof.
  split; [|split; [|split]].
  - intros id v w. unfold patch_summary. cbn [bind].
    destruct v; cbn [typeof_string fst status res_status ret];
      try (split; intros _; reflexivity).
    unfold bind. rewrite updateSummaryContent_run.
    destruct (summaries (storage w) !! id); cbn; split; discriminate.
  - intros id x w summary Hs. unfold patch_summary. cbn [bind].
    rewrite updateSummaryContent_run, Hs. cbn [fst snd storage summaries ret].
    split; [reflexivity | apply lookup_insert_eq].
  - intros summary emailData. split; reflexivity.
  - intros rt env req_body w d s t r rs Hparse Hs Ht Hr Hnew w1.
    assert (storage w1 = {| transcripts := transcripts (storage w);
                            summaries := <[ie_summaryId d := edited s EmptyString]>
                                           (summaries (storage w));
                            emailShares := emailShares (storage w) |}) as Hst.
    { subst w1. unfold patch_summary. cbn [bind].
      rewrite updateSummaryContent_run, Hs. reflexivity. }
    rewrite (post_email_send_mail rt env req_body w1 d (edited s EmptyString) t r rs
               Hparse); try assumption.
    + reflexivity.
    + rewrite Hst. apply lookup_insert_eq.
    + rewrite Hst. exact Ht.
Qed.

Lemma empty_edit_accepted_and_ignored_by_mail_witness :
  fst (patch_summary "uuid-2" (VStr EmptyString) Mail.w)
  = res_json (OfSummary (edited Mail.summary EmptyString))
  /\ map mail_text
       (sends (events_since Edited.cleared
                 (snd (post_email_send Mail.rt Mail.env
                         (Mail.request "uuid-2" Sample.one_address VUndefined VUndefined)
                         Edited.cleared))))
     = ["MEETING SUMMARY" +:+ LF +:+ LF +:+ "- Ship by Friday"].
Proof.
  destruct empty_edit_accepted_and_ignored_by_mail as (_ & Hpatch & _ & Hmail).
  split.
  - refine (proj1 (Hpatch "uuid-2" EmptyString Mail.w Mail.summary _)).
    vm_compute. reflexivity.
  - refine (Hmail Mail.rt Mail.env
              (Mail.request "uuid-2" Sample.one_address VUndefined VUndefined) Mail.w _
              Mail.summary Mail.transcript (VStr "a@x.com") [] eq_refl _ _ eq_refl eq_refl).
    + vm_compute. reflexivity.
    + vm_compute. reflexivity.
Defined.

(** * The transcript routes and the rest of the storage *)

(** ** Uploads ([multer]) *)

(** [req.file] as the upload route reads it. *)
Record UploadedFile := {
  file_buffer : list Byte.byte;
  file_originalname : string;
  file_mimetype : string }.

(** [s.endsWith(suffix)] *)
Definition endsWith (s suffix : string) : bool :=
  let n := String.length s in
  let m := String.length suffix in
  (m <=? n)%nat && String.eqb (substring (n - m) m s) suffix.

(** The [fileFilter] of the upload: [cb(null, true)] is [inr true],
    [cb(new Error(..))] the error's message. *)
Definition fileFilter (file : UploadedFile) : string + bool :=
  if String.eqb (file_mimetype file) "text/plain"
     || endsWith (file_originalname file) ".txt"
  then inr true
  else inl "Only .txt files are allowed".


Section Transcripts.

Variable rt : Runtime.

(** [insertTranscriptSchema.parse] of [@shared/schema] and
    [buffer.toString('utf-8')], taken as given. *)
Variable insertTranscriptSchema_parse : value -> ZodError + InsertTranscript.
Variable Buffer_toString_utf8 : list Byte.byte -> string.

(** POST /api/transcripts/upload, from [req.file] on. *)
Definition post_transcripts_upload (file : option UploadedFile) : M Response :=
  match file with
  | None => ret (res_status 400 "No file uploaded")
  | Some file =>
      let content := Buffer_toString_utf8 (file_buffer file) in
      let filename := file_originalname file in
      match insertTranscriptSchema_parse
              (VObj [("content", VStr content); ("filename", VStr filename)]) with
      | inl zodError => ret (res_status 400 (zod_message zodError))
      | inr transcriptData =>
          let* transcript := createTranscript rt transcriptData in
          ret (res_json (OfTranscript transcript))
      end
  end.

(** POST /api/transcripts *)
Definition post_transcripts (req_body : value) : M Response :=
  match insertTranscriptSchema_parse req_body with
  | inl zodError => ret (res_status 400 (zod_message zodError))
  | inr transcriptData =>
      let* transcript := createTranscript rt transcriptData in
      ret (res_json (OfTranscript transcript))
  end.

End Transcripts.

(** What the upload route passes to the schema. *)
Definition upload_body (Buffer_toString_utf8 : list Byte.byte -> string)
    (file : UploadedFile) : value :=
  VObj [("content", VStr (Buffer_toString_utf8 (file_buffer file)));
        ("filename", VStr (file_originalname file))].

(** ** What the routes keep *)

(** Every entity is stored under its own id, every summary names a
    stored transcript and every share a stored summary. *)
Definition consistent (s : MemStorage) : Prop :=
  (forall id t, transcripts s !! id = Some t -> transcript_id t = id)
  /\ (forall id x, summaries s !! id = Some x ->
        summary_id x = id /\ is_Some (transcripts s !! summary_transcriptId x))
  /\ (forall id e, emailShares s !! id = Some e ->
        share_id e = id /\ is_Some (summaries s !! share_summaryId e)).

(** No entity is ever removed. *)
Definition keeps_keys (s s' : MemStorage) : Prop :=
  dom (transcripts s) ⊆ dom (transcripts s')
  /\ dom (summaries s) ⊆ dom (summaries s')
  /\ dom (emailShares s) ⊆ dom (emailShares s').

(** One request served: any route, any input. *)
Inductive served (rt : Runtime)
    (insertTranscriptSchema_parse : value -> ZodError + InsertTranscript)
    (Buffer_toString_utf8 : list Byte.byte -> string) : World -> World -> Prop :=
| served_upload file w :
    served rt insertTranscriptSchema_parse Buffer_toString_utf8 w
      (snd (post_transcripts_upload rt insertTranscriptSchema_parse
              Buffer_toString_utf8 file w))
| served_transcripts req_body w :
    served rt insertTranscriptSchema_parse Buffer_toString_utf8 w
      (snd (post_transcripts rt insertTranscriptSchema_parse req_body w))
| served_summaries env req_body w :
    served rt insertTranscriptSchema_parse Buffer_toString_utf8 w
      (snd (post_summaries rt env req_body w))
| served_patch id editedContent w :
    served rt insertTranscriptSchema_parse Buffer_toString_utf8 w
      (snd (patch_summary id editedContent w))
| served_get id w :
    served rt insertTranscriptSchema_parse Buffer_toString_utf8 w
      (snd (get_summary id w))
| served_email env req_body w :
    served rt insertTranscriptSchema_parse Buffer_toString_utf8 w
      (snd (post_email_send rt env req_body w)).

(** The worlds the server gets to from the empty storage of
    [new MemStorage()]. *)
Inductive reachable (rt : Runtime)
    (insertTranscriptSchema_parse : value -> ZodError + InsertTranscript)
    (Buffer_toString_utf8 : list Byte.byte -> string) : World -> Prop :=
| reachable_new tick trace :
    reachable rt insertTranscriptSchema_parse Buffer_toString_utf8
      {| storage := {| transcripts := ∅; summaries := ∅; emailShares := ∅ |};
         tick := tick; trace := trace |}
| reachable_served w w' :
    reachable rt insertTranscriptSchema_parse Buffer_toString_utf8 w ->
    served rt insertTranscriptSchema_parse Buffer_toString_utf8 w w' ->
    reachable rt insertTranscriptSchema_parse Buffer_toString_utf8 w'.


(** The ways one request changes the storage. *)
Inductive storage_change (s : MemStorage) : MemStorage -> Prop :=
| change_none : storage_change s s
| change_transcript t :
    storage_change s
      {| transcripts := <[transcript_id t := t]> (transcripts s);
         summaries := summaries s;
         emailShares := emailShares s |}
| change_summary x :
    is_Some (transcripts s !! summary_transcriptId x) ->
    storage_change s
      {| transcripts := transcripts s;
         summaries := <[summary_id x := x]> (summaries s);
         emailShares := emailShares s |}
| change_edit id x editedContent :
    summaries s !! id = Some x ->
    storage_change s
      {| transcripts := transcripts s;
         summaries := <[id := edited x editedContent]> (summaries s);
         emailShares := emailShares s |}
| change_share e :
    is_Some (summaries s !! share_summaryId e) ->
    storage_change s
      {| transcripts := transcripts s;
         summaries := summaries s;
         emailShares := <[share_id e := e]> (emailShares s) |}.

(** The transcript the storage builds at [w]. *)
Definition created_transcript (rt : Runtime) (insertTranscript : InsertTranscript)
    (w : World) : Transcript :=
  {| transcript_id := randomUUID_at rt (tick w);
     transcript_content := it_content insertTranscript;
     transcript_filename := it_filename insertTranscript;
     transcript_createdAt := Date_at rt (S (tick w)) |}.


(** *** Transcripts of the examples *)

Module Intake.

(** Modelled from the spec: [insertTranscriptSchema] of [@shared/schema],
    which is not among the sources, as the Transcript of the spec has
    it: a required text [content] and an optional [filename]. *)
Definition schema (v : value) : ZodError + InsertTranscript :=
  match v with
  | VObj fields =>
      match Sample.field "content" fields, Sample.field "filename" fields with
      | VStr content, ((VStr _ | VNull | VUndefined) as f) =>
          inr {| it_content := content;
                 it_filename := match f with VStr s => Some s | _ => None end |}
      | _, _ => inl {| zod_message := "Validation error: Required" |}
      end
  | _ => inl {| zod_message := "Validation error: Expected object" |}
  end.

(** [buffer.toString('utf-8')] on a buffer of ASCII bytes. *)
Definition decode (buffer : list Byte.byte) : string := string_of_list_byte buffer.

Definition pasted : value := VObj [("content", VStr "Alice: ship by Friday.")].

Definition notes : UploadedFile :=
  {| file_buffer := list_byte_of_string "Alice: ship by Friday.";
     file_originalname := "standup.txt";
     file_mimetype := "text/plain" |}.

(** The server after the upload of [notes], and after the summary of it
    was generated. *)
Definition uploaded : World :=
  snd (post_transcripts_upload Fallback.rt schema decode (Some notes) Sample.empty).

Definition summarised : World :=
  snd (post_summaries Fallback.rt Mail.env Fallback.req_body uploaded).

End Intake.

Module Outage.
(** Every provider is configured and none gives a text. *)
Definition rt : Runtime :=
  Sample.runtime (NotOk "quota exceeded") (Threw "socket hang up") (Ok None)
                 (SendThrew "socket hang up").
End Outage.

Module Direct.
(** Gemini answers with a summary. *)
Definition rt : Runtime :=
  Sample.runtime (Ok (Some "- Ship by Friday")) (Ok (Some "never asked"))
                 (Ok (Some "never asked")) (SendResult None).
End Direct.


(** * Further properties *)

(** ** Storage *)

Lemma createTranscript_run rt insertTranscript w :
  createTranscript rt insertTranscript w =
  (created_transcript rt insertTranscript w,
   {| storage := {| transcripts := <[randomUUID_at rt (tick w) :=
                                       created_transcript rt insertTranscript w]>
                                     (transcripts (storage w));
                    summaries := summaries (storage w);
                    emailShares := emailShares (storage w) |};
      tick := S (S (tick w));
      trace := trace w ++ [EvSet Transcripts (randomUUID_at rt (tick w))] |}).
Proof. reflexivity. Qed.

Lemma patch_summary_run id editedContent w :
  patch_summary id editedContent w =
  match editedContent with
  | VStr x =>
      match summaries (storage w) !! id with
      | Some summary =>
          (res_json (OfSummary (edited summary x)),
           {| storage := {| transcripts := transcripts (storage w);
                            summaries := <[id := edited summary x]> (summaries (storage w));
                            emailShares := emailShares (storage w) |};
              tick := tick w;
              trace := trace w ++ [EvSet Summaries id] |})
      | None => (res_status 404 "Summary not found", w)
      end
  | _ => (res_status 400 "editedContent must be a string", w)
  end.
Proof.
  unfold patch_summary. destruct editedContent; try reflexivity.
  unfold bind. rewrite updateSummaryContent_run.
  destruct (summaries (storage w) !! id); reflexivity.
Qed.

Lemma get_summary_run id w :
  get_summary id w =
  (match summaries (storage w) !! id with
   | Some summary => res_json (OfSummary summary)
   | None => res_status 404 "Summary not found"
   end, w).
Proof.
  unfold get_summary, getSummary, get_storage. simpl.
  destruct (summaries (storage w) !! id); reflexivity.
Qed.

(** The run of POST /api/summaries in full. *)
Lemma post_summaries_cases rt env req_body w :
  let run := post_summaries rt env req_body w in
  ((present (transcriptId req_body) = None
    \/ present (prompt req_body) = None
    \/ exists tid, present (transcriptId req_body) = Some tid
                   /\ transcripts (storage w) !! tid = None)
   /\ snd run = w /\ (status (fst run) = 400 \/ status (fst run) = 404))
  \/ exists tid p transcript l w1,
       present (transcriptId req_body) = Some tid
       /\ present (prompt req_body) = Some p
       /\ transcripts (storage w) !! tid = Some transcript
       /\ provider_chain rt env p (transcript_content transcript) w = (l, w1)
       /\ storage w1 = storage w
       /\ tick w1 = tick w
       /\ ((status (fst run) = 500 /\ snd run = w1)
           \/ exists text,
                present (aiSummary l) = Some text
                /\ run = (res_json (OfSummary
                                      (created_summary rt
                                         {| is_transcriptId := tid; is_prompt := p;
                                            is_content := Some text |} w1)),
                          snd (createSummary rt
                                 {| is_transcriptId := tid; is_prompt := p;
                                    is_content := Some text |} w1))).
Proof.
  intros run.
  assert (present (transcriptId req_body) = None
          \/ present (prompt req_body) = None
          \/ (exists tid, present (transcriptId req_body) = Some tid
                          /\ transcripts (storage w) !! tid = None) ->
          snd run = w /\ (status (fst run) = 400 \/ status (fst run) = 404)) as Hguard.
  { intros H. destruct (post_summaries_guarded rt env req_body w H) as [Hw [Hr|Hr]];
      fold run in Hw, Hr; split; auto. right. now rewrite Hr. }
  destruct (present (transcriptId req_body)) as [tid|] eqn:Htid;
    [|left; split; [|apply Hguard]; auto].
  destruct (present (prompt req_body)) as [p|] eqn:Hp;
    [|left; split; [|apply Hguard]; auto].
  destruct (transcripts (storage w) !! tid) as [transcript|] eqn:Ht;
    [|left; split; [|apply Hguard]; eauto 6].
  right. subst run.
  rewrite (post_summaries_run rt env req_body w tid p transcript Htid Hp Ht).
  pose proof (provider_chain_refines rt env p (transcript_content transcript) w) as R.
  destruct (provider_chain rt env p (transcript_content transcript) w) as [l w1] eqn:Hrun.
  cbv zeta in R. cbn [fst snd] in R. destruct R as (_ & _ & _ & Hst & Htk & _).
  exists tid, p, transcript, l, w1. repeat split; try assumption.
  destruct (negb _ && negb _ && negb _); [left; split; reflexivity|].
  destruct (present (aiSummary l)) as [text|]; [|left; split; reflexivity].
  right. exists text. split; reflexivity.
Qed.


(** ** The transcript routes *)

Lemma substring_all (s : string) : substring 0 (String.length s) s = s.
Proof. induction s as [|c s IH]; simpl; [reflexivity | now rewrite IH]. Qed.

Lemma substring_split (s : string) (k : nat) :
  k <= String.length s ->
  substring 0 k s +:+ substring k (String.length s - k) s = s.
Proof.
  revert k. induction s as [|c s IH]; intros [|k] Hk.
  - reflexivity.
  - simpl in Hk. lia.
  - rewrite Nat.sub_0_r, substring_all. destruct s; reflexivity.
  - simpl in *.
    transitivity (String c (substring 0 k s +:+ substring k (String.length s - k) s));
      [reflexivity|].
    f_equal. apply IH. lia.
Qed.

Lemma substring_append (p s : string) :
  substring (String.length p) (String.length s) (p +:+ s) = s.
Proof.
  induction p as [|c p IH]; [apply substring_all | exact IH].
Qed.

Lemma length_append (p s : string) :
  String.length (p +:+ s) = String.length p + String.length s.
Proof.
  induction p as [|c p IH]; [reflexivity|].
  change (S (String.length (p +:+ s)) = S (String.length p + String.length s)).
  now f_equal.
Qed.

Lemma endsWith_spec (s suffix : string) :
  endsWith s suffix = true <-> exists stem, s = stem +:+ suffix.
Proof.
  unfold endsWith. rewrite andb_true_iff, Nat.leb_le, String.eqb_eq. split.
  - intros [Hle Hsub]. exists (substring 0 (String.length s - String.length suffix) s).
    pose proof (substring_split s (String.length s - String.length suffix)) as H.
    replace (String.length s - (String.length s - String.length suffix))
      with (String.length suffix) in H by lia.
    rewrite Hsub in H. symmetry. apply H. lia.
  - intros [stem ->]. rewrite length_append. split; [lia|].
    replace (String.length stem + String.length suffix - String.length suffix)
      with (String.length stem) by lia.
    apply substring_append.
Qed.

(** X1.  The upload filter lets a file through exactly when its MIME type
    is text/plain or its name ends in ".txt" (as written: lower case);
    every other file gets the error "Only .txt files are allowed". *)
Theorem fileFilter_accepts_text (file : UploadedFile) :
  (fileFilter file = inr true
   <-> file_mimetype file = "text/plain"
       \/ exists stem, file_originalname file = stem +:+ ".txt")
  /\ (fileFilter file = inr true \/ fileFilter file = inl "Only .txt files are allowed").
Proof.
  unfold fileFilter. split.
  - rewrite <- endsWith_spec, <- String.eqb_eq, <- orb_true_iff.
    destruct (_ || _); split; congruence.
  - destruct (_ || _); auto.
Qed.

Lemma post_transcripts_run rt insertTranscriptSchema_parse req_body w :
  post_transcripts rt insertTranscriptSchema_parse req_body w =
  match insertTranscriptSchema_parse req_body with
  | inl zodError => (res_status 400 (zod_message zodError), w)
  | inr transcriptData =>
      (res_json (OfTranscript (created_transcript rt transcriptData w)),
       snd (createTranscript rt transcriptData w))
  end.
Proof.
  unfold post_transcripts.
  destruct (insertTranscriptSchema_parse req_body); reflexivity.
Qed.

(** X2.  POST /api/transcripts answers a body the schema refuses with 400
    and the schema's message and leaves the world as it was; a body it
    accepts is answered with a transcript that holds the accepted
    content and filename and is then found under its id, every other
    transcript, the summaries and the shares being as before.  The
    upload route answers 400 "No file uploaded" without a file and else
    does the same with the decoded buffer and the file's name. *)
Theorem post_transcripts_stores_or_rejects
    (rt : Runtime)
    (insertTranscriptSchema_parse : value -> ZodError + InsertTranscript)
    (Buffer_toString_utf8 : list Byte.byte -> string)
    (req_body : value) (w : World) :
  let run := post_transcripts rt insertTranscriptSchema_parse req_body w in
  match insertTranscriptSchema_parse req_body with
  | inl zodError => run = (res_status 400 (zod_message zodError), w)
  | inr transcriptData =>
      exists transcript,
        fst run = res_json (OfTranscript transcript)
        /\ transcript_content transcript = it_content transcriptData
        /\ transcript_filename transcript = it_filename transcriptData
        /\ getTranscript (transcript_id transcript) (snd run) = (Some transcript, snd run)
        /\ (forall id, id <> transcript_id transcript ->
              transcripts (storage (snd run)) !! id = transcripts (storage w) !! id)
        /\ summaries (storage (snd run)) = summaries (storage w)
        /\ emailShares (storage (snd run)) = emailShares (storage w)
  end
  /\ post_transcripts_upload rt insertTranscriptSchema_parse Buffer_toString_utf8 None w
     = (res_status 400 "No file uploaded", w)
  /\ forall file,
       post_transcripts_upload rt insertTranscriptSchema_parse Buffer_toString_utf8
         (Some file) w
       = post_transcripts rt insertTranscriptSchema_parse
           (upload_body Buffer_toString_utf8 file) w.
Proof.
  intros run. subst run. rewrite post_transcripts_run.
  split; [|split; reflexivity].
  destruct (insertTranscriptSchema_parse req_body) as [e|d]; [reflexivity|].
  exists (created_transcript rt d w). rewrite createTranscript_run.
  unfold getTranscript, get_storage. cbn.
  rewrite lookup_insert_eq. repeat split.
  intros id Hid. now rewrite lookup_insert_ne.
Qed.

(** X3.  A transcript that POST /api/transcripts stored can be
    summarised: the request with the answered id and a non-empty prompt
    is not answered 400 or 404, and its provider calls are those of the
    chain on the stored content, which is the accepted content. *)
Theorem post_transcripts_then_summaries
    (rt : Runtime)
    (insertTranscriptSchema_parse : value -> ZodError + InsertTranscript)
    (env : Env) (req_body : value) (w : World)
    (transcriptData : InsertTranscript) (p : string) :
  insertTranscriptSchema_parse req_body = inr transcriptData ->
  randomUUID_at rt (tick w) <> EmptyString ->
  p <> EmptyString ->
  let w1 := snd (post_transcripts rt insertTranscriptSchema_parse req_body w) in
  let run := post_summaries rt env
               {| transcriptId := Some (randomUUID_at rt (tick w)); prompt := Some p |} w1 in
  fst (post_transcripts rt insertTranscriptSchema_parse req_body w)
  = res_json (OfTranscript (created_transcript rt transcriptData w))
  /\ transcript_id (created_transcript rt transcriptData w) = randomUUID_at rt (tick w)
  /\ fetches (events_since w1 (snd run))
     = map snd (fst (chain_spec rt env p (it_content transcriptData) priority))
  /\ status (fst run) <> 400
  /\ status (fst run) <> 404.
Proof.
  intros Hparse Hid Hp w1 run.
  assert (present (transcriptId {| transcriptId := Some (randomUUID_at rt (tick w));
                                   prompt := Some p |})
          = Some (randomUUID_at rt (tick w))) as Htid.
  { cbn. destruct (randomUUID_at rt (tick w)); [congruence | reflexivity]. }
  assert (present (prompt {| transcriptId := Some (randomUUID_at rt (tick w));
                             prompt := Some p |}) = Some p) as Hp'.
  { cbn. destruct p; [congruence | reflexivity]. }
  assert (transcripts (storage w1) !! randomUUID_at rt (tick w)
          = Some (created_transcript rt transcriptData w)) as Ht.
  { subst w1. rewrite post_transcripts_run, Hparse, createTranscript_run. cbn.
    apply lookup_insert_eq. }
  split; [now rewrite post_transcripts_run, Hparse|].
  split; [reflexivity|].
  split; [subst run; now rewrite (post_summaries_fetches _ _ _ _ _ _ _ Htid Hp' Ht)|].
  destruct (post_summaries_cases rt env
              {| transcriptId := Some (randomUUID_at rt (tick w)); prompt := Some p |} w1)
    as [[Hbad _]|(tid & p0 & t & l & w2 & _ & _ & _ & _ & _ & _ & [[H _]|(text & _ & H)])].
  - exfalso. destruct Hbad as [Hbad|[Hbad|(tid & Hbad & Hnone)]]; congruence.
  - fold run in H. rewrite H. split; discriminate.
  - fold run in H. rewrite H. split; discriminate.
Qed.


Lemma post_transcripts_then_summaries_witness :
  let w1 := snd (post_transcripts Fallback.rt Intake.schema Intake.pasted Sample.empty) in
  let run := post_summaries Fallback.rt Fallback.env Fallback.req_body w1 in
  fetches (events_since w1 (snd run))
  = [gemini_request "g-key" "list action items" "Alice: ship by Friday.";
     openai_request "o-key" "list action items" "Alice: ship by Friday."]
  /\ status (fst run) <> 404.
Proof.
  destruct (post_transcripts_then_summaries Fallback.rt Intake.schema Fallback.env
              Intake.pasted Sample.empty
              {| it_content := "Alice: ship by Friday."; it_filename := None |}
              "list action items" eq_refl)
    as (_ & _ & Hcalls & _ & H404).
  - discriminate.
  - discriminate.
  - split; [exact Hcalls | exact H404].
Defined.

(** ** Edits *)

(** X4.  Of two edits of the same id in a row the second one wins: its
    answer and the storage after it are those of the second edit alone.
    An edit repeated with the same text changes nothing further. *)
Theorem patch_summary_last_write_wins
    (id : string) (x y : string) (w : World) :
  let w1 := snd (patch_summary id (VStr x) w) in
  fst (patch_summary id (VStr y) w1) = fst (patch_summary id (VStr y) w)
  /\ storage (snd (patch_summary id (VStr y) w1))
     = storage (snd (patch_summary id (VStr y) w))
  /\ storage (snd (patch_summary id (VStr x) w1)) = storage w1.
Proof.
  intros w1. subst w1. rewrite !patch_summary_run.
  destruct (summaries (storage w) !! id) as [s|] eqn:Hs; cbn [snd storage summaries].
  - rewrite lookup_insert_eq. cbn [fst snd storage]. rewrite !insert_insert_eq.
    repeat split.
  - rewrite Hs. repeat split.
Qed.

(** X5.  An edit touches one summary at most: the transcripts, the
    shares, every other summary and the tick are as before, no provider
    is called and no mail sent; for an id that is not stored a string is
    answered 404 "Summary not found" and the world is left as it was. *)
Theorem patch_summary_frame (id : string) (editedContent : value) (w : World) :
  let run := patch_summary id editedContent w in
  transcripts (storage (snd run)) = transcripts (storage w)
  /\ emailShares (storage (snd run)) = emailShares (storage w)
  /\ tick (snd run) = tick w
  /\ (forall id', id' <> id ->
        summaries (storage (snd run)) !! id' = summaries (storage w) !! id')
  /\ fetches (events_since w (snd run)) = []
  /\ sends (events_since w (snd run)) = []
  /\ (summaries (storage w) !! id = None ->
      snd run = w
      /\ (typeof_string editedContent = true ->
          fst run = res_status 404 "Summary not found")).
Proof.
  intros run. subst run. rewrite patch_summary_run.
  destruct editedContent; cbn [fst snd typeof_string];
    try (rewrite events_since_refl; repeat split; discriminate).
  destruct (summaries (storage w) !! id) as [x|] eqn:Hs; cbn [fst snd storage summaries
    transcripts emailShares tick].
  - erewrite events_since_app; [|reflexivity].
    repeat split; try discriminate.
    intros id' Hid. now rewrite lookup_insert_ne.
  - rewrite events_since_refl. repeat split.
Qed.

(** ** Summaries *)

Lemma post_summaries_effect
    (rt : Runtime) (env : Env) (req_body : CreateSummaryRequest) (w : World) :
  let run := post_summaries rt env req_body w in
  transcripts (storage (snd run)) = transcripts (storage w)
  /\ emailShares (storage (snd run)) = emailShares (storage w)
  /\ (((status (fst run) = 400 \/ status (fst run) = 404 \/ status (fst run) = 500)
       /\ storage (snd run) = storage w /\ tick (snd run) = tick w)
      \/ exists summary,
           fst run = res_json (OfSummary summary)
           /\ summary_id summary = randomUUID_at rt (tick w)
           /\ summary_editedContent summary = None
           /\ summaries (storage (snd run))
              = <[summary_id summary := summary]> (summaries (storage w))
           /\ tick (snd run) = S (S (tick w))
           /\ get_summary (summary_id summary) (snd run)
              = (res_json (OfSummary summary), snd run)).
Proof.
  intros run.
  destruct (post_summaries_cases rt env req_body w)
    as [(_ & Hw & Hr)|(tid & p & t & l & w1 & _ & _ & _ & _ & Hst & Htk &
                       [[Hr Hw]|(text & _ & Hrun)])];
    fold run in Hw, Hr || fold run in Hrun.
  - rewrite Hw. repeat split. left. repeat split. tauto.
  - rewrite Hw, Hst, Htk. repeat split. left. repeat split. tauto.
  - rewrite Hrun, createSummary_run. cbn [fst snd storage transcripts emailShares
      summaries tick]. rewrite Hst, Htk. repeat split. right.
    eexists. split; [reflexivity|]. cbn [summary_id summary_editedContent created_summary].
    rewrite Htk. repeat split. rewrite get_summary_run. cbn [storage summaries].
    now rewrite lookup_insert_eq.
Qed.

(** X6.  POST /api/summaries never changes the transcripts or the shares.
    An answer other than 200 leaves the whole storage and the tick as
    they were; a 200 answer carries a summary with the next fresh id and
    no edited content, the summaries are the old ones with it set under
    its id, and GET /api/summaries/:id with that id then answers with
    the same summary. *)
Theorem post_summaries_stores_on_success_only
    (rt : Runtime) (env : Env) (req_body : CreateSummaryRequest) (w : World) :
  let run := post_summaries rt env req_body w in
  transcripts (storage (snd run)) = transcripts (storage w)
  /\ emailShares (storage (snd run)) = emailShares (storage w)
  /\ (((status (fst run) = 400 \/ status (fst run) = 404 \/ status (fst run) = 500)
       /\ storage (snd run) = storage w /\ tick (snd run) = tick w)
      \/ exists summary,
           fst run = res_json (OfSummary summary)
           /\ summary_id summary = randomUUID_at rt (tick w)
           /\ summary_editedContent summary = None
           /\ summaries (storage (snd run))
              = <[summary_id summary := summary]> (summaries (storage w))
           /\ tick (snd run) = S (S (tick w))
           /\ get_summary (summary_id summary) (snd run)
              = (res_json (OfSummary summary), snd run)).
Proof. exact (post_summaries_effect rt env req_body w). Qed.

(** X7.  Generating again keeps what was generated before: a summary
    stored under an id other than the next fresh one is still stored,
    unchanged, after any POST /api/summaries. *)
Theorem post_summaries_keeps_earlier
    (rt : Runtime) (env : Env) (req_body : CreateSummaryRequest) (w : World)
    (id : string) (earlier : Summary) :
  summaries (storage w) !! id = Some earlier ->
  randomUUID_at rt (tick w) <> id ->
  summaries (storage (snd (post_summaries rt env req_body w))) !! id = Some earlier.
Proof.
  intros Hs Hfresh.
  destruct (post_summaries_effect rt env req_body w)
    as (_ & _ & [(_ & Hst & _)|(summary & _ & Hid & _ & Hsum & _)]).
  - now rewrite Hst.
  - rewrite Hsum, lookup_insert_ne; [exact Hs | congruence].
Qed.

Lemma post_summaries_keeps_earlier_witness :
  summaries (storage (snd (post_summaries Fallback.rt Mail.env Fallback.req_body Mail.w)))
    !! "uuid-2" = Some Mail.summary.
Proof.
  apply (post_summaries_keeps_earlier Fallback.rt Mail.env Fallback.req_body Mail.w
           "uuid-2" Mail.summary).
  - vm_compute. reflexivity.
  - vm_compute. discriminate.
Defined.

(** ** Provider keys and calls *)

Section Keys.

Variables (rt : Runtime) (env : Env) (prompt content : string).

(** With every call failing the chain goes through the whole list. *)
Lemma chain_spec_exhausted ps :
  snd (chain_spec rt env prompt content ps) = None ->
  map snd (fst (chain_spec rt env prompt content ps))
  = omap (fun p => (fun key => request_of p key prompt content)
                     <$> present (credential env p)) ps.
Proof.
  induction ps as [|q ps IH]; simpl; [reflexivity|].
  destruct (present (credential env q)) as [key|]; simpl; [|exact IH].
  destruct (text_of (fetch_outcome rt (request_of q key prompt content)));
    [discriminate|].
  destruct (chain_spec rt env prompt content ps) as [calls result]. simpl in *.
  intros H. now rewrite IH.
Qed.

End Keys.


(** X9.  When Gemini's key is configured and Gemini answers with a
    non-empty text, that call is the only one, whatever other keys are
    configured, and the locals hold Gemini's text and name. *)
Theorem provider_chain_gemini_first
    (rt : Runtime) (env : Env) (prompt content : string) (w : World)
    (key text : string) :
  present (GOOGLE_API_KEY env) = Some key ->
  text_of (fetch_outcome rt (gemini_request key prompt content)) = Some text ->
  let run := provider_chain rt env prompt content w in
  fetches (events_since w (snd run)) = [gemini_request key prompt content]
  /\ aiSummary (fst run) = Some text
  /\ apiUsed (fst run) = "Google Gemini".
Proof.
  intros Hkey Htext run.
  destruct (provider_chain_refines rt env prompt content w)
    as (_ & Hf & _ & _ & _ & _ & Hname).
  fold run in Hf, Hname. fold (events_since w (snd run)) in Hf.
  assert (chain_spec rt env prompt content priority
          = ([(Gemini, gemini_request key prompt content)], Some (text, Gemini))) as Hspec.
  { unfold priority. simpl. rewrite Hkey. simpl. now rewrite Htext. }
  rewrite Hspec in Hf, Hname. split; [exact Hf|].
  exact (Hname text Gemini eq_refl).
Qed.

(** X10.  When no call of the chain returns a text, every configured
    provider was called, once and in priority order, and no other
    call was made. *)
Theorem provider_chain_tries_all
    (rt : Runtime) (env : Env) (prompt content : string) (w : World) :
  let run := provider_chain rt env prompt content w in
  (forall req, In req (fetches (events_since w (snd run))) ->
               text_of (fetch_outcome rt req) = None) ->
  fetches (events_since w (snd run))
  = omap (fun p => (fun key => request_of p key prompt content)
                     <$> present (credential env p)) priority
  /\ present (aiSummary (fst run)) = None.
Proof.
  intros run Hfail.
  destruct (provider_chain_refines rt env prompt content w)
    as (_ & Hf & _ & _ & _ & Hai & _).
  fold run in Hf, Hai. fold (events_since w (snd run)) in Hf.
  assert (snd (chain_spec rt env prompt content priority) = None) as Hnone.
  { destruct (snd (chain_spec rt env prompt content priority)) as [[t p]|] eqn:Hres;
      [|reflexivity].
    destruct (chain_spec_result _ _ _ _ _ _ _ Hres) as (req & Hin & Htext).
    rewrite (Hfail req) in Htext; [discriminate|].
    rewrite Hf. apply in_map_iff. exists (p, req). auto. }
  split.
  - rewrite Hf. now apply chain_spec_exhausted.
  - now rewrite Hai, Hnone.
Qed.


Lemma provider_chain_gemini_first_witness :
  let run := provider_chain Direct.rt Fallback.env "list action items"
               "Alice: ship by Friday." Fallback.w in
  fetches (events_since Fallback.w (snd run))
  = [gemini_request "g-key" "list action items" "Alice: ship by Friday."]
  /\ aiSummary (fst run) = Some "- Ship by Friday"
  /\ apiUsed (fst run) = "Google Gemini".
Proof.
  apply (provider_chain_gemini_first Direct.rt Fallback.env "list action items"
           "Alice: ship by Friday." Fallback.w "g-key" "- Ship by Friday");
    reflexivity.
Defined.

Lemma provider_chain_tries_all_witness :
  let run := provider_chain Outage.rt Fallback.env "list action items"
               "Alice: ship by Friday." Fallback.w in
  fetches (events_since Fallback.w (snd run))
  = [gemini_request "g-key" "list action items" "Alice: ship by Friday.";
     openai_request "o-key" "list action items" "Alice: ship by Friday.";
     groq_request "q-key" "list action items" "Alice: ship by Friday."]
  /\ present (aiSummary (fst run)) = None.
Proof.
  apply (provider_chain_tries_all Outage.rt Fallback.env "list action items"
           "Alice: ship by Friday." Fallback.w).
  vm_compute. intros req [<-|[<-|[<-|[]]]]; reflexivity.
Defined.

(** ** Mails *)

(** X11.  The failures of POST /api/email/send that are no validation
    answer: a body the schema refuses is answered 400 with the schema's
    message; recipients that are no JSON text, a mail client that cannot
    be built and a send that throws are answered 500 "Failed to send
    email".  In all four the storage is as before, and only in the last
    was the mail provider called. *)
Theorem post_email_send_failures
    (rt : Runtime) (env : Env) (req_body : value) (w : World) :
  let run := post_email_send rt env req_body w in
  (forall zodError,
      insertEmailShareSchema_parse rt req_body = inl zodError ->
      fst run = res_status 400 (zod_message zodError)
      /\ storage (snd run) = storage w
      /\ sends (events_since w (snd run)) = [])
  /\ (forall emailData summary transcript,
        insertEmailShareSchema_parse rt req_body = inr emailData ->
        summaries (storage w) !! ie_summaryId emailData = Some summary ->
        transcripts (storage w) !! summary_transcriptId summary = Some transcript ->
        (JSON_parse rt (ie_recipients emailData) = None ->
         fst run = res_status 500 "Failed to send email"
         /\ storage (snd run) = storage w
         /\ sends (events_since w (snd run)) = [])
        /\ (forall r rs,
              JSON_parse rt (ie_recipients emailData) = Some (VArr (r :: rs)) ->
              (forall e, Resend_new rt (RESEND_API_KEY env) = Some e ->
                         fst run = res_status 500 "Failed to send email"
                         /\ storage (snd run) = storage w
                         /\ sends (events_since w (snd run)) = [])
              /\ (forall e,
                    Resend_new rt (RESEND_API_KEY env) = None ->
                    resend_emails_send rt (RESEND_API_KEY env)
                      (mail_of emailData summary transcript (r :: rs)) = SendThrew e ->
                    fst run = res_status 500 "Failed to send email"
                    /\ storage (snd run) = storage w
                    /\ sends (events_since w (snd run))
                       = [mail_of emailData summary transcript (r :: rs)]))).
Proof.
  intros run. subst run. rewrite post_email_send_run. split.
  - intros z ->. cbn [fst snd]. now rewrite events_since_emitted.
  - intros d s t -> -> ->. split.
    + intros ->. cbn [fst snd]. now rewrite events_since_emitted.
    + intros r rs ->. split.
      * intros e ->. cbn [fst snd]. now rewrite events_since_emitted.
      * intros e -> Hsend.
        pose proof (dispatch_run rt env d s t (r :: rs) w) as D. cbv zeta in D.
        rewrite Hsend in D. destruct D as (Hr & Hst & He).
        rewrite Hr, Hst, He. repeat split.
Qed.

Lemma post_email_send_failures_witness :
  let run := post_email_send Outage.rt Mail.env
               (Mail.request "uuid-2" "a@x.com" VUndefined VUndefined) Mail.w in
  fst run = res_status 500 "Failed to send email"
  /\ storage (snd run) = storage Mail.w
  /\ sends (events_since Mail.w (snd run)) = [].
Proof.
  refine (proj1 (proj2 (post_email_send_failures Outage.rt Mail.env
                          (Mail.request "uuid-2" "a@x.com" VUndefined VUndefined) Mail.w)
                   _ Mail.summary Mail.transcript eq_refl _ _) eq_refl).
  - vm_compute. reflexivity.
  - vm_compute. reflexivity.
Defined.

(** X12.  A request that passes validation and whose send succeeds is
    answered with a share that carries the request's summary id,
    recipients text, subject, message and flag as they came, under the
    next fresh id; the share is then found under its id, exactly one
    mail was sent, and the transcripts and summaries are as before. *)
Theorem post_email_send_records_request
    (rt : Runtime) (env : Env) (req_body : value) (w : World)
    (emailData : InsertEmailShare) (summary : Summary) (transcript : Transcript)
    (r : value) (rs : list value) :
  insertEmailShareSchema_parse rt req_body = inr emailData ->
  summaries (storage w) !! ie_summaryId emailData = Some summary ->
  transcripts (storage w) !! summary_transcriptId summary = Some transcript ->
  JSON_parse rt (ie_recipients emailData) = Some (VArr (r :: rs)) ->
  Resend_new rt (RESEND_API_KEY env) = None ->
  resend_emails_send rt (RESEND_API_KEY env)
    (mail_of emailData summary transcript (r :: rs)) = SendResult None ->
  let run := post_email_send rt env req_body w in
  exists share,
    fst run = res_json (OfEmailShare share)
    /\ share_id share = randomUUID_at rt (tick w)
    /\ share_summaryId share = ie_summaryId emailData
    /\ share_recipients share = ie_recipients emailData
    /\ share_subject share = ie_subject emailData
    /\ share_message share = ie_message emailData
    /\ share_includeTranscript share = ie_includeTranscript emailData
    /\ getEmailShare (share_id share) (snd run) = (Some share, snd run)
    /\ sends (events_since w (snd run)) = [mail_of emailData summary transcript (r :: rs)]
    /\ transcripts (storage (snd run)) = transcripts (storage w)
    /\ summaries (storage (snd run)) = summaries (storage w).
Proof.
  intros Hparse Hs Ht Hr Hnew Hsend run. subst run.
  rewrite post_email_send_run, Hparse, Hs, Ht, Hr, Hnew.
  rewrite dispatch_sends. unfold dispatch. cbv zeta. rewrite Hsend.
  rewrite createEmailShare_run. cbn [fst snd].
  eexists. split; [reflexivity|].
  unfold getEmailShare, get_storage. cbn.
  rewrite lookup_insert_eq. repeat split.
Qed.

Lemma post_email_send_records_request_witness :
  let run := post_email_send Mail.rt Mail.env
               (Mail.request "uuid-2" Sample.one_address VUndefined (VBool true)) Mail.w in
  exists share,
    fst run = res_json (OfEmailShare share)
    /\ share_summaryId share = "uuid-2"
    /\ share_recipients share = Sample.one_address
    /\ getEmailShare (share_id share) (snd run) = (Some share, snd run).
Proof.
  destruct (post_email_send_records_request Mail.rt Mail.env
              (Mail.request "uuid-2" Sample.one_address VUndefined (VBool true)) Mail.w
              {| ie_summaryId := "uuid-2"; ie_recipients := Sample.one_address;
                 ie_subject := "Summary of the meeting"; ie_message := None;
                 ie_includeTranscript := Some true |}
              Mail.summary Mail.transcript (VStr "a@x.com") [] eq_refl)
    as (share & Hrun & _ & Hsid & Hrec & _ & _ & _ & Hget & _).
  - vm_compute. reflexivity.
  - vm_compute. reflexivity.
  - reflexivity.
  - reflexivity.
  - reflexivity.
  - exists share. repeat split; assumption.
Defined.


(** ** What every request keeps *)

Lemma post_email_send_change rt env req_body w :
  storage_change (storage w) (storage (snd (post_email_send rt env req_body w))).
Proof.
  rewrite post_email_send_run.
  destruct (insertEmailShareSchema_parse rt req_body) as [z|d]; [apply change_none|].
  destruct (summaries (storage w) !! ie_summaryId d) as [s|] eqn:Hs; [|apply change_none].
  destruct (transcripts (storage w) !! summary_transcriptId s) as [t|]; [|apply change_none].
  destruct (JSON_parse rt (ie_recipients d)) as [[| | | | |[|r rs]|]|]; try apply change_none.
  destruct (Resend_new rt (RESEND_API_KEY env)) as [e|]; [apply change_none|].
  unfold dispatch. cbv zeta.
  destruct (resend_emails_send rt _ _) as [e|[e|]]; try apply change_none.
  rewrite createEmailShare_run. cbn [snd storage emitted tick].
  apply (change_share (storage w)
           (created_share rt d (emitted w [EvSend (RESEND_API_KEY env)
                                             (mail_of d s t (r :: rs))]))).
  cbn. rewrite Hs. eauto.
Qed.

Lemma post_summaries_change rt env req_body w :
  storage_change (storage w) (storage (snd (post_summaries rt env req_body w))).
Proof.
  destruct (post_summaries_cases rt env req_body w)
    as [(_ & -> & _)|(tid & p & t & l & w1 & _ & _ & Ht & _ & Hst & Htk &
                      [[_ ->]|(text & _ & ->)])].
  - apply change_none.
  - rewrite Hst. apply change_none.
  - rewrite createSummary_run. cbn [snd storage]. rewrite Hst.
    apply (change_summary (storage w)
             (created_summary rt {| is_transcriptId := tid; is_prompt := p;
                                    is_content := Some text |} w1)).
    cbn. rewrite Ht. eauto.
Qed.

Lemma patch_summary_change id editedContent w :
  storage_change (storage w) (storage (snd (patch_summary id editedContent w))).
Proof.
  rewrite patch_summary_run. destruct editedContent; try apply change_none.
  destruct (summaries (storage w) !! id) as [x|] eqn:Hx; [|apply change_none].
  now apply change_edit.
Qed.

Lemma post_transcripts_change rt insertTranscriptSchema_parse req_body w :
  storage_change (storage w)
    (storage (snd (post_transcripts rt insertTranscriptSchema_parse req_body w))).
Proof.
  rewrite post_transcripts_run.
  destruct (insertTranscriptSchema_parse req_body) as [e|d]; [apply change_none|].
  rewrite createTranscript_run.
  apply (change_transcript (storage w) (created_transcript rt d w)).
Qed.

Lemma served_change rt insertTranscriptSchema_parse Buffer_toString_utf8 w w' :
  served rt insertTranscriptSchema_parse Buffer_toString_utf8 w w' ->
  storage_change (storage w) (storage w').
Proof.
  intros [[file|] ?|body ?|env body ?|id v ?|id ?|env body ?].
  - apply (post_transcripts_change rt insertTranscriptSchema_parse
             (upload_body Buffer_toString_utf8 file)).
  - apply change_none.
  - apply post_transcripts_change.
  - apply post_summaries_change.
  - apply patch_summary_change.
  - rewrite get_summary_run. apply change_none.
  - apply post_email_send_change.
Qed.

Lemma is_Some_insert {A} (m : gmap string A) (k k' : string) (v : A) :
  is_Some (m !! k) -> is_Some (<[k' := v]> m !! k).
Proof. rewrite lookup_insert. case_decide; eauto. Qed.

Lemma storage_change_consistent s s' :
  storage_change s s' -> consistent s -> consistent s'.
Proof.
  intros Hch (Ht & Hs & He).
  destruct Hch as [|t|x Hx|id x editedContent Hx|e Hshare];
    unfold consistent; cbn [transcripts summaries emailShares].
  - auto.
  - split; [|split; [|exact He]].
    + intros id t'. rewrite lookup_insert.
      case_decide as Hd; [intros [= <-]; exact Hd | apply Ht].
    + intros id x H. destruct (Hs id x H) as [Hid Hsome].
      split; [exact Hid | apply is_Some_insert, Hsome].
  - split; [exact Ht|split].
    + intros id x'. rewrite lookup_insert.
      case_decide as Hd; [intros [= <-]; split; [exact Hd | exact Hx] | apply Hs].
    + intros id e H. destruct (He id e H) as [Hid Hsome].
      split; [exact Hid | apply is_Some_insert, Hsome].
  - split; [exact Ht|split].
    + intros id' x'. rewrite lookup_insert.
      case_decide as Hd; [intros [= <-]; subst; exact (Hs _ _ Hx) | apply Hs].
    + intros id' e H. destruct (He id' e H) as [Hid Hsome].
      split; [exact Hid | apply is_Some_insert, Hsome].
  - split; [exact Ht|split; [exact Hs|]].
    intros id e'. rewrite lookup_insert.
    case_decide as Hd; [intros [= <-]; split; [exact Hd | exact Hshare] | apply He].
Qed.

Lemma storage_change_keeps_keys s s' : storage_change s s' -> keeps_keys s s'.
Proof.
  intros [|t|x Hx|id x editedContent Hx|e Hshare]; unfold keeps_keys;
    cbn [transcripts summaries emailShares]; rewrite ?dom_insert_L;
    repeat split; set_solver.
Qed.

(** X13.  One request, whatever the route and the input, changes the
    storage in at most one place: it adds a transcript, or a summary
    that names a stored transcript, or sets the edited content of a
    stored summary, or adds a share that names a stored summary. *)
Theorem served_changes_one_entity
    (rt : Runtime)
    (insertTranscriptSchema_parse : value -> ZodError + InsertTranscript)
    (Buffer_toString_utf8 : list Byte.byte -> string) (w w' : World) :
  served rt insertTranscriptSchema_parse Buffer_toString_utf8 w w' ->
  storage_change (storage w) (storage w').
Proof. apply served_change. Qed.

(** X14.  Nothing is ever deleted: every id stored before a request is
    stored after it, in each of the three maps. *)
Theorem served_keeps_keys
    (rt : Runtime)
    (insertTranscriptSchema_parse : value -> ZodError + InsertTranscript)
    (Buffer_toString_utf8 : list Byte.byte -> string) (w w' : World) :
  served rt insertTranscriptSchema_parse Buffer_toString_utf8 w w' ->
  keeps_keys (storage w) (storage w').
Proof. intros H. eapply storage_change_keeps_keys, served_change, H. Qed.

Lemma reachable_consistent_storage rt insertTranscriptSchema_parse Buffer_toString_utf8 w :
  reachable rt insertTranscriptSchema_parse Buffer_toString_utf8 w ->
  consistent (storage w).
Proof.
  induction 1 as [tick trace|w w' _ IH Hserved].
  - split; [|split]; cbn; intros ? ? Hl; rewrite lookup_empty in Hl; discriminate.
  - eapply storage_change_consistent; [eapply served_change, Hserved | exact IH].
Qed.

(** X15.  In every world the server gets to from the empty storage, each
    entity is stored under its own id, each summary names a stored
    transcript and each share a stored summary. *)
Theorem reachable_consistent
    (rt : Runtime)
    (insertTranscriptSchema_parse : value -> ZodError + InsertTranscript)
    (Buffer_toString_utf8 : list Byte.byte -> string) (w : World) :
  reachable rt insertTranscriptSchema_parse Buffer_toString_utf8 w ->
  consistent (storage w).
Proof. apply reachable_consistent_storage. Qed.

(** X16.  So on the server's own storage the defensive check of
    POST /api/email/send never fires, and a summary read by id carries
    that id: the mail route does not answer 404 "Transcript not found",
    and GET /api/summaries/:id answers 404 or a summary whose id is the
    one asked for. *)
Theorem reachable_lookups_agree
    (rt : Runtime)
    (insertTranscriptSchema_parse : value -> ZodError + InsertTranscript)
    (Buffer_toString_utf8 : list Byte.byte -> string) (w : World) :
  reachable rt insertTranscriptSchema_parse Buffer_toString_utf8 w ->
  (forall env req_body,
      fst (post_email_send rt env req_body w) <> res_status 404 "Transcript not found")
  /\ (forall id,
        fst (get_summary id w) = res_status 404 "Summary not found"
        \/ exists summary,
             fst (get_summary id w) = res_json (OfSummary summary)
             /\ summary_id summary = id).
Proof.
  intros Hreach.
  destruct (reachable_consistent_storage _ _ _ _ Hreach) as (_ & Hs & _). split.
  - intros env req_body. rewrite post_email_send_run.
    destruct (insertEmailShareSchema_parse rt req_body) as [z|d]; [discriminate|].
    destruct (summaries (storage w) !! ie_summaryId d) as [s|] eqn:Hsum; [|discriminate].
    destruct (Hs _ _ Hsum) as [_ [t Ht]]. rewrite Ht.
    destruct (JSON_parse rt (ie_recipients d)) as [[| | | | |[|r rs]|]|]; try discriminate.
    destruct (Resend_new rt (RESEND_API_KEY env)) as [e|]; [discriminate|].
    unfold dispatch. cbv zeta.
    destruct (resend_emails_send rt _ _) as [e|[e|]]; discriminate.
  - intros id. rewrite get_summary_run.
    destruct (summaries (storage w) !! id) as [s|] eqn:Hsum; [right|left; reflexivity].
    exists s. split; [reflexivity | now apply Hs in Hsum].
Qed.


Lemma summarised_reachable :
  reachable Fallback.rt Intake.schema Intake.decode Intake.uploaded
  /\ reachable Fallback.rt Intake.schema Intake.decode Intake.summarised.
Proof.
  assert (reachable Fallback.rt Intake.schema Intake.decode Intake.uploaded) as H.
  { eapply reachable_served; [exact (reachable_new _ _ _ 0 [])|].
    exact (served_upload _ _ _ (Some Intake.notes) Sample.empty). }
  split; [exact H|].
  eapply reachable_served; [exact H|].
  exact (served_summaries _ _ _ Mail.env Fallback.req_body Intake.uploaded).
Qed.

Lemma served_changes_one_entity_witness :
  storage_change (storage Sample.empty) (storage Intake.uploaded).
Proof.
  apply (served_changes_one_entity Fallback.rt Intake.schema Intake.decode
           Sample.empty Intake.uploaded).
  exact (served_upload _ _ _ (Some Intake.notes) Sample.empty).
Defined.

Lemma served_keeps_keys_witness :
  keeps_keys (storage Intake.uploaded) (storage Intake.summarised).
Proof.
  apply (served_keeps_keys Fallback.rt Intake.schema Intake.decode
           Intake.uploaded Intake.summarised).
  exact (served_summaries _ _ _ Mail.env Fallback.req_body Intake.uploaded).
Defined.

Lemma reachable_consistent_witness : consistent (storage Intake.summarised).
Proof.
  exact (reachable_consistent Fallback.rt Intake.schema Intake.decode Intake.summarised
           (proj2 summarised_reachable)).
Defined.

Lemma reachable_lookups_agree_witness :
  (forall env req_body,
      fst (post_email_send Fallback.rt env req_body Intake.summarised)
      <> res_status 404 "Transcript not found")
  /\ (forall id,
        fst (get_summary id Intake.summarised) = res_status 404 "Summary not found"
        \/ exists summary,
             fst (get_summary id Intake.summarised) = res_json (OfSummary summary)
             /\ summary_id summary = id).
Proof.
  exact (reachable_lookups_agree Fallback.rt Intake.schema Intake.decode
           Intake.summarised (proj2 summarised_reachable)).
Defined.

(** ** From the upload to the mail *)

(** X17.  A file is uploaded, summarised by the chain, the summary edited
    and mailed with the summary's id: the mail goes to the parsed
    recipients, its text carries the edit (the generated text when the
    edit is empty), and with [includeTranscript] true and a non-empty
    content the attachment is the uploaded content under the accepted
    filename ("transcript.txt" when that is absent or empty). *)
Theorem upload_to_mail
    (rt : Runtime)
    (insertTranscriptSchema_parse : value -> ZodError + InsertTranscript)
    (Buffer_toString_utf8 : list Byte.byte -> string)
    (env : Env) (w : World)
    (file : UploadedFile) (transcriptData : InsertTranscript)
    (p text : string) (provider : Provider) (x : string)
    (req_body : value) (emailData : InsertEmailShare) (r : value) (rs : list value) :
  insertTranscriptSchema_parse (upload_body Buffer_toString_utf8 file)
  = inr transcriptData ->
  randomUUID_at rt (tick w) <> EmptyString ->
  p <> EmptyString ->
  snd (chain_spec rt env p (it_content transcriptData) priority) = Some (text, provider) ->
  let w1 := snd (post_transcripts_upload rt insertTranscriptSchema_parse
                   Buffer_toString_utf8 (Some file) w) in
  let w2 := snd (post_summaries rt env
                   {| transcriptId := Some (randomUUID_at rt (tick w));
                      prompt := Some p |} w1) in
  let w3 := snd (patch_summary (randomUUID_at rt (tick w1)) (VStr x) w2) in
  insertEmailShareSchema_parse rt req_body = inr emailData ->
  ie_summaryId emailData = randomUUID_at rt (tick w1) ->
  JSON_parse rt (ie_recipients emailData) = Some (VArr (r :: rs)) ->
  Resend_new rt (RESEND_API_KEY env) = None ->
  sends (events_since w3 (snd (post_email_send rt env req_body w3)))
  = [ {| mail_from := "no-reply@resend.dev";
         mail_to := r :: rs;
         mail_subject := ie_subject emailData;
         mail_text :=
           (match ie_message emailData with
            | Some m => if truthy_string m then m +:+ LF +:+ LF +:+ "---" +:+ LF +:+ LF
                        else EmptyString
            | None => EmptyString
            end) +:+ "MEETING SUMMARY" +:+ LF +:+ LF
           +:+ (if truthy_string x then x else text);
         mail_attachments :=
           match ie_includeTranscript emailData with
           | Some true =>
               if truthy_string (it_content transcriptData)
               then Some [ {| att_filename := nonempty_or (it_filename transcriptData)
                                                          "transcript.txt";
                              att_content := it_content transcriptData;
                              att_type := "text/plain" |} ]
               else None
           | _ => None
           end |} ].
Proof.
  intros Hparse Hid Hp Hres w1 w2 w3 Hmail Hsid Hr Hnew. subst w2 w3.
  set (body := {| transcriptId := Some (randomUUID_at rt (tick w)); prompt := Some p |}).
  set (w2 := snd (post_summaries rt env body w1)).
  set (w3 := snd (patch_summary (randomUUID_at rt (tick w1)) (VStr x) w2)).
  set (t := created_transcript rt transcriptData w).
  assert (present (transcriptId body) = Some (randomUUID_at rt (tick w))) as Htid.
  { cbn. destruct (randomUUID_at rt (tick w)); [congruence | reflexivity]. }
  assert (present (prompt body) = Some p) as Hp'.
  { cbn. destruct p; [congruence | reflexivity]. }
  assert (storage w1 = {| transcripts := <[randomUUID_at rt (tick w) := t]>
                                           (transcripts (storage w));
                          summaries := summaries (storage w);
                          emailShares := emailShares (storage w) |}
          /\ tick w1 = S (S (tick w))) as [Hst1 Htk1].
  { subst w1. change (post_transcripts_upload rt insertTranscriptSchema_parse
                        Buffer_toString_utf8 (Some file) w)
      with (post_transcripts rt insertTranscriptSchema_parse
              (upload_body Buffer_toString_utf8 file) w).
    rewrite post_transcripts_run, Hparse, createTranscript_run. split; reflexivity. }
  assert (transcripts (storage w1) !! randomUUID_at rt (tick w) = Some t) as Ht.
  { rewrite Hst1. cbn. apply lookup_insert_eq. }
  destruct (chain_spec_result _ _ _ _ _ _ _ Hres) as (req & Hcall & Htext).
  apply text_of_Some in Htext as [Hout Hne].
  assert (In req (fetches (events_since w1 (snd (post_summaries rt env body w1))))) as Hin.
  { rewrite (post_summaries_fetches rt env body w1 _ p t Htid Hp' Ht).
    apply in_map_iff. exists (provider, req). auto. }
  destruct (post_summaries_text_persisted rt env body w1 _ req text eq_refl
              (ex_intro _ t Ht) Hin Hout Hne)
    as (s & Hrun & _ & Hs_tid & _ & Hs_content & Hs_edited).
  destruct (post_summaries_effect rt env body w1)
    as (Htr2 & _ & [([H|[H|H]] & _)|(s' & Hrun' & Hs_id & _ & Hsum2 & _)]);
    try (rewrite Hrun in H; discriminate H).
  rewrite Hrun in Hrun'. injection Hrun' as <-.
  fold w2 in Htr2, Hsum2.
  assert (summaries (storage w3) !! ie_summaryId emailData = Some (edited s x)
          /\ transcripts (storage w3) = transcripts (storage w1)) as [Hs3 Ht3].
  { subst w3. rewrite patch_summary_run, Hsum2, <- Hs_id, lookup_insert_eq.
    cbn [snd storage summaries transcripts]. rewrite Hsid, <- Hs_id, lookup_insert_eq.
    split; [reflexivity | exact Htr2]. }
  rewrite (post_email_send_mail rt env req_body w3 emailData (edited s x) t r rs
             Hmail Hs3); try assumption.
  - rewrite mail_of_composed. unfold composed_text, composed_attachments, nonempty_or.
    cbn [summary_editedContent summary_content edited transcript_content
         transcript_filename t created_transcript].
    rewrite Hs_content. reflexivity.
  - rewrite Ht3. cbn [summary_transcriptId edited]. now rewrite Hs_tid.
Qed.

Lemma upload_to_mail_witness :
  sends (events_since (snd (patch_summary "uuid-2" (VStr "- Ship by Friday (owner: Alice)")
                              Intake.summarised))
           (snd (post_email_send Fallback.rt Mail.env
                   (Mail.request "uuid-2" Sample.one_address VUndefined (VBool true))
                   (snd (patch_summary "uuid-2" (VStr "- Ship by Friday (owner: Alice)")
                           Intake.summarised)))))
  = [ {| mail_from := "no-reply@resend.dev";
         mail_to := [VStr "a@x.com"];
         mail_subject := "Summary of the meeting";
         mail_text := "MEETING SUMMARY" +:+ LF +:+ LF +:+ "- Ship by Friday (owner: Alice)";
         mail_attachments := Some [ {| att_filename := "standup.txt";
                                       att_content := "Alice: ship by Friday.";
                                       att_type := "text/plain" |} ] |} ].
Proof.
  refine (upload_to_mail Fallback.rt Intake.schema Intake.decode Mail.env Sample.empty
            Intake.notes
            {| it_content := "Alice: ship by Friday."; it_filename := Some "standup.txt" |}
            "list action items" "- Ship by Friday" OpenAI
            "- Ship by Friday (owner: Alice)"
            (Mail.request "uuid-2" Sample.one_address VUndefined (VBool true))
            {| ie_summaryId := "uuid-2"; ie_recipients := Sample.one_address;
               ie_subject := "Summary of the meeting"; ie_message := None;
               ie_includeTranscript := Some true |}
            (VStr "a@x.com") [] eq_refl _ _ eq_refl eq_refl eq_refl eq_refl eq_refl).
  - discriminate.
  - discriminate.
Defined.

(** ** Summaries of a transcript *)

